(** * mimi: recent last.fm tracks loaded into VLC as youtube links

    A shallow embedding of [mimi.py] and the properties of its
    track-resolution and polling loop.

    Python values that come out of [json] are embedded as the inductive
    [json]; a Python operation that can raise returns a [result]; the
    network, the telnet session, the clock and the few interpreter
    builtins whose behaviour depends on the Python version are the fields
    of an environment [Env].  Every call that leaves the process is
    recorded as an [event], so that the order of the calls can be stated. *)

From Stdlib Require Import ZArith QArith List String Ascii Bool Lia Sorted.
Import ListNotations.

Set Warnings "-register-all".

Open Scope string_scope.
Open Scope list_scope.
Open Scope Z_scope.

(** ** Exceptions and results *)

Inductive exn : Type :=
| KeyError
| IndexError
| TypeError
| ValueError
| AttributeError
| OverflowError
| UnicodeEncodeError
| OSError
| RequestException
| JSONDecodeError
| ParserError
| KeyboardInterrupt.

Inductive result (A : Type) : Type :=
| Ok (a : A)
| Raise (e : exn).

Arguments Ok {A} a.
Arguments Raise {A} e.

Definition rbind {A B : Type} (r : result A) (f : A -> result B) : result B :=
  match r with
  | Ok a => f a
  | Raise e => Raise e
  end.

Declare Scope result_scope.
Delimit Scope result_scope with res.
Notation "x <- r ;; k" := (rbind r (fun x => k))
  (at level 61, r at next level, right associativity) : result_scope.

(** ** Python values

    The values [json.loads] produces: [None], booleans, integers, text,
    lists and dictionaries.  A dictionary is the list of its items in
    insertion order; a key is looked up from the front.  Text is a string
    of bytes (its UTF-8 encoding). *)

Inductive json : Type :=
| JNull
| JBool (b : bool)
| JNum (n : Z)
| JStr (s : string)
| JList (l : list json)
| JDict (d : list (string * json)).

Module Py.

Fixpoint lookup (k : string) (d : list (string * json)) : option json :=
  match d with
  | [] => None
  | (k', v) :: d' => if String.eqb k k' then Some v else lookup k d'
  end.

(** [v[k]] for a text key [k]. *)
Definition getitem (v : json) (k : string) : result json :=
  match v with
  | JDict d =>
      match lookup k d with
      | Some x => Ok x
      | None => Raise KeyError
      end
  | _ => Raise TypeError
  end.

Fixpoint chars (s : string) : list json :=
  match s with
  | EmptyString => []
  | String c s' => JStr (String c EmptyString) :: chars s'
  end.

(** The position a Python sequence of length [n] reads for the index
    [i]: negative indices count from the end. *)
Definition position (n : nat) (i : Z) : option nat :=
  let len := Z.of_nat n in
  if (0 <=? i) && (i <? len) then Some (Z.to_nat i)
  else if (i <? 0) && (0 <=? i + len) then Some (Z.to_nat (i + len))
  else None.

Definition at_position (l : list json) (i : Z) : result json :=
  match position (List.length l) i with
  | Some n =>
      match nth_error l n with
      | Some x => Ok x
      | None => Raise IndexError
      end
  | None => Raise IndexError
  end.

(** [v[i]] for an integer [i].  The keys of a dictionary read from JSON
    are text, so an integer is never among them. *)
Definition getindex (v : json) (i : Z) : result json :=
  match v with
  | JList l => at_position l i
  | JStr s => at_position (chars s) i
  | JDict _ => Raise KeyError
  | _ => Raise TypeError
  end.

(** [len(v)] *)
Definition len (v : json) : result Z :=
  match v with
  | JList l => Ok (Z.of_nat (List.length l))
  | JStr s => Ok (Z.of_nat (String.length s))
  | JDict d => Ok (Z.of_nat (List.length d))
  | _ => Raise TypeError
  end.

(** [reversed(v)], as the list of the values it yields (a dictionary
    yields its keys). *)
Definition reversed (v : json) : result (list json) :=
  match v with
  | JList l => Ok (rev l)
  | JStr s => Ok (rev (chars s))
  | JDict d => Ok (rev (map (fun kv => JStr (fst kv)) d))
  | _ => Raise TypeError
  end.

Definition is_text (k : string) (v : json) : bool :=
  match v with
  | JStr s => String.eqb k s
  | _ => false
  end.

(** [k in v] for a text [k]: a key of a dictionary, an element of a
    list, a substring of a text. *)
Definition contains (k : string) (v : json) : result bool :=
  match v with
  | JDict d =>
      Ok (match lookup k d with Some _ => true | None => false end)
  | JList l => Ok (existsb (is_text k) l)
  | JStr s =>
      Ok (match String.index 0 k s with Some _ => true | None => false end)
  | _ => Raise TypeError
  end.

Definition is_digit (c : ascii) : bool :=
  let n := nat_of_ascii c in ((48 <=? n) && (n <=? 57))%nat.

Fixpoint all_digits (s : string) : bool :=
  match s with
  | EmptyString => true
  | String c s' => is_digit c && all_digits s'
  end.

Fixpoint digits_value (acc : Z) (s : string) : Z :=
  match s with
  | EmptyString => acc
  | String c s' => digits_value (10 * acc + (Z.of_nat (nat_of_ascii c) - 48)) s'
  end.

(** A plain run of decimal digits, short enough for every interpreter's
    limit on integer text (4300 digits). *)
Definition plain_decimal (s : string) : bool :=
  negb (String.eqb s "") && all_digits s && (String.length s <=? 4300)%nat.

Definition is_ascii (c : ascii) : bool := (nat_of_ascii c <? 128)%nat.

Fixpoint all_ascii (s : string) : bool :=
  match s with
  | EmptyString => true
  | String c s' => is_ascii c && all_ascii s'
  end.

(** [s.encode('ascii')] *)
Definition encode_ascii (s : string) : result string :=
  if all_ascii s then Ok s else Raise UnicodeEncodeError.

(** [s.find(sub)] *)
Definition find (sub s : string) : Z :=
  match String.index 0 sub s with
  | Some n => Z.of_nat n
  | None => -1
  end.

Fixpoint drop (n : nat) (s : string) : string :=
  match n, s with
  | O, _ => s
  | S n', EmptyString => EmptyString
  | S n', String _ s' => drop n' s'
  end.

(** [s[i:]] for [0 <= i] *)
Definition slice_from (i : Z) (s : string) : string := drop (Z.to_nat i) s.

Definition newline : string := String (ascii_of_nat 10) EmptyString.

End Py.

(** ** Calls that leave the process *)

Inductive event : Type :=
| EvRecentTracks (user : string) (api_key : json) (from_ts limit : Z)
| EvGetPage (url : json)
| EvSearch (q : string) (api_key : json) (max_results : Z)
| EvConnect (conn : nat) (host port : json)
| EvWrite (conn : nat) (message : string)
| EvClose (conn : nat)
| EvPrint (line : string)
| EvStatus (now : Q) (last_ts : Z)
| EvNextUpdate (active : bool) (seconds : Z)
| EvSleep (seconds : Z).

(** The world outside the program.  Every answer may depend on the calls
    made so far (the history), so that two requests for the same page, or
    two polls, need not be answered alike.

    - [int_of_text]: [int(s)] for a text that is not a plain run of
      digits (signs, blanks, underscores: the accepted grammar depends on
      the interpreter);
    - [str_of_value]: [str(v)] for numbers, lists and dictionaries;
    - [lastfm_recenttracks]: the [requests.post] of [get_tracks] followed
      by [req.json()];
    - [lastfm_page]: [requests.get] of a track page, [lxml.html.fromstring]
      and the values of [//@data-youtube-url] in document order;
    - [youtube_search]: the [requests.get] of the search followed by
      [req.json()];
    - [telnet_open], [telnet_write]: [telnetlib.Telnet(server, port)] and
      [Telnet.write], [None] when they return normally;
    - [clock]: [datetime.datetime.now().timestamp()], as an exact rational;
    - [time_sleep]: [time.sleep], [None] when it returns normally. *)

Record Env : Type := {
  int_of_text : string -> result Z;
  str_of_value : json -> string;
  lastfm_recenttracks : list event -> string -> json -> Z -> Z -> result json;
  lastfm_page : list event -> json -> result (list string);
  youtube_search : list event -> string -> json -> Z -> result json;
  telnet_open : list event -> json -> json -> option exn;
  telnet_write : list event -> nat -> string -> option exn;
  clock : list event -> Q;
  time_sleep : list event -> Z -> option exn
}.

(** ** Computations

    A computation starts from the history of the calls made before it and
    gives its outcome together with the calls it made itself, oldest
    first.  An exception keeps the calls made before it was raised. *)

Definition M (A : Type) : Type := list event -> result A * list event.

Definition ret {A : Type} (a : A) : M A := fun _ => (Ok a, []).

Definition raise {A : Type} (e : exn) : M A := fun _ => (Raise e, []).

Definition lift {A : Type} (r : result A) : M A := fun _ => (r, []).

Definition emit (ev : event) : M unit := fun _ => (Ok tt, [ev]).

Definition ask {A : Type} (f : list event -> A) : M A := fun h => (Ok (f h), []).

Definition bind {A B : Type} (m : M A) (f : A -> M B) : M B :=
  fun h =>
    match m h with
    | (Ok a, es) => let (r, es') := f a (h ++ es) in (r, es ++ es')
    | (Raise e, es) => (Raise e, es)
    end.

Declare Scope prog_scope.
Delimit Scope prog_scope with prog.
Notation "x <- m ;; k" := (bind m (fun x => k))
  (at level 61, m at next level, right associativity) : prog_scope.

Definition check (o : option exn) : M unit :=
  match o with
  | None => ret tt
  | Some e => raise e
  end.

(** [try: body finally: cleanup], the shape of a [with] block whose
    [__exit__] returns [None]: the cleanup runs however the body ends and
    the body's exception, if any, is raised again after it. *)
Definition finally {A : Type} (body : M A) (cleanup : M unit) : M A :=
  fun h =>
    let (r, es) := body h in
    let (c, es') := cleanup (h ++ es) in
    (match c with Ok _ => r | Raise e => Raise e end, es ++ es').

Fixpoint for_each {A : Type} (f : A -> M unit) (l : list A) : M unit :=
  match l with
  | [] => ret tt
  | x :: l' => bind (f x) (fun _ => for_each f l')
  end.

Definition outcome {A : Type} (p : result A * list event) : result A := fst p.
Definition calls {A : Type} (p : result A * list event) : list event := snd p.

(** ** The program *)

Record VLCrc : Type := {
  server : json;
  port : json;
  telnet : option nat
}.

Record Scrobbler : Type := {
  user : string;
  lastfm_key : json
}.

Record YoutubeLinker : Type := {
  youtube_key : json
}.

(** The local variables of [main] that the loop reads and never assigns. *)
Record Locals : Type := {
  limit : Z;
  host : json;
  vlc_port : json;
  active_window_s : Z;
  awake_s : Z;
  asleep_s : Z;
  scrobbler : Scrobbler;
  linker : YoutubeLinker
}.

Definition is_none (v : json) : bool :=
  match v with
  | JNull => true
  | _ => false
  end.

(** [(//@data-youtube-url)[last()]] applied to the attribute values of
    the document: the last of them, or nothing. *)
Fixpoint xpath_last (values : list string) : list string :=
  match values with
  | [] => []
  | [v] => [v]
  | _ :: rest => xpath_last rest
  end.

Definition video_url_prefix : string := "https://www.youtube.com/watch?v=".

(** [now.timestamp() - last_ts < active_window_s] *)
Definition recently_active (now : Q) (last_ts window_s : Z) : bool :=
  match (now - inject_Z last_ts ?= inject_Z window_s)%Q with
  | Lt => true
  | _ => false
  end.

Section Program.

Variable E : Env.

Open Scope prog_scope.

(** [int(v)] *)
Definition py_int (v : json) : result Z :=
  match v with
  | JNum n => Ok n
  | JBool b => Ok (if b then 1 else 0)
  | JStr s => if Py.plain_decimal s then Ok (Py.digits_value 0 s) else int_of_text E s
  | _ => Raise TypeError
  end.

(** [str(v)], which is what [format] substitutes for a field. *)
Definition py_str (v : json) : string :=
  match v with
  | JStr s => s
  | JNull => "None"
  | JBool true => "True"
  | JBool false => "False"
  | _ => str_of_value E v
  end.

(** *** class VLCrc *)

Definition VLCrc_init (server port : json) : M VLCrc :=
  fun h =>
    match telnet_open E h server port with
    | None =>
        (Ok {| server := server; port := port; telnet := Some (List.length h) |},
         [EvConnect (List.length h) server port])
    | Some e => (Raise e, [])
    end.

(** [__exit__]: closes the session and gives the object as it is left,
    with [telnet] set to [None]. *)
Definition VLCrc_exit (self : VLCrc) : M VLCrc :=
  match telnet self with
  | Some conn =>
      _ <- emit (EvClose conn) ;;
      ret {| server := server self; port := port self; telnet := None |}
  | None => raise AttributeError
  end.

Definition enqueue (self : VLCrc) (youtube_url : string) : M unit :=
  let message := ("enqueue " ++ youtube_url ++ Py.newline)%string in
  match telnet self with
  | Some conn =>
      bytes <- lift (Py.encode_ascii message) ;;
      _ <- emit (EvWrite conn bytes) ;;
      fun h => check (telnet_write E h conn bytes) h
  | None => raise AttributeError
  end.

(** [with VLCrc(host, port) as vlcrc: body] *)
Definition with_VLCrc {A : Type} (host port : json) (body : VLCrc -> M A) : M A :=
  vlcrc <- VLCrc_init host port ;;
  finally (body vlcrc) (_ <- VLCrc_exit vlcrc ;; ret tt).

(** *** class Scrobbler *)

Definition get_tracks (self : Scrobbler) (last_ts limit : Z) : M json :=
  _ <- emit (EvRecentTracks (user self) (lastfm_key self) last_ts limit) ;;
  body <- (fun h => lift (lastfm_recenttracks E h (user self) (lastfm_key self) last_ts limit) h) ;;
  recenttracks <- lift (Py.getitem body "recenttracks") ;;
  lift (Py.getitem recenttracks "track").

(** *** class YoutubeLinker *)

Definition _get_from_lastfm (self : YoutubeLinker) (track : json) : M (option string) :=
  lastfm_url <- lift (Py.getitem track "url") ;;
  _ <- emit (EvGetPage lastfm_url) ;;
  values <- (fun h => lift (lastfm_page E h lastfm_url) h) ;;
  match xpath_last values with
  | [] => ret None
  | link :: _ => ret (Some link)
  end.

(** The [while i < max_results] loop over the decoded search response;
    [remaining] is [max_results - i].  Leaving the loop by its condition
    runs the [else] branch, which gives [None]. *)
Fixpoint scan_results (body : json) (remaining : nat) (i : Z) : result (option string) :=
  match remaining with
  | O => Ok None
  | S remaining' =>
      (items <- Py.getitem body "items" ;;
       ith <- Py.getindex items i ;;
       ith_result <- Py.getitem ith "id" ;;
       has_id <- Py.contains "videoId" ith_result ;;
       if has_id : bool then
         video_id <- Py.getitem ith_result "videoId" ;;
         Ok (Some (video_url_prefix ++ py_str video_id)%string)
       else scan_results body remaining' (i + 1))%res
  end.

Definition _get_from_youtube (self : YoutubeLinker) (track : json) : M (option string) :=
  if is_none (youtube_key self) then ret None
  else
    track_name <- lift (Py.getitem track "name") ;;
    artist <- lift (Py.getitem track "artist") ;;
    track_author <- lift (Py.getitem artist "#text") ;;
    let max_results := 5 in
    let query := (py_str track_name ++ " " ++ py_str track_author)%string in
    _ <- emit (EvSearch query (youtube_key self) max_results) ;;
    body <- (fun h => lift (youtube_search E h query (youtube_key self) max_results) h) ;;
    lift (scan_results body (Z.to_nat (max_results - 0)) 0).

Definition get_youtube_url (self : YoutubeLinker) (track : json) : M (option string) :=
  url <- _get_from_lastfm self track ;;
  match url with
  | None => _get_from_youtube self track
  | Some _ => ret url
  end.

(** *** load_tracks *)

(** The body of the [for] loop, for one track. *)
Definition load_track (vlcrc : VLCrc) (youtube_linker : YoutubeLinker)
    (verbose : bool) (track : json) : M unit :=
  youtube_url <- get_youtube_url youtube_linker track ;;
  match youtube_url with
  | None => ret tt
  | Some url =>
      _ <- enqueue vlcrc url ;;
      if verbose then
        track_name <- lift (Py.getitem track "name") ;;
        let video_id := Py.slice_from (Py.find "?v=" url + 3) url in
        emit (EvPrint ("[" ++ video_id ++ "] Loaded " ++ py_str track_name)%string)
      else ret tt
  end.

Definition load_tracks (tracks : json) (last_ts : Z) (vlcrc : VLCrc)
    (youtube_linker : YoutubeLinker) (verbose : bool) : M Z :=
  n <- lift (Py.len tracks) ;;
  if n =? 0 then ret last_ts
  else
    newest <- lift (Py.getindex tracks 0) ;;
    date <- lift (Py.getitem newest "date") ;;
    uts <- lift (Py.getitem date "uts") ;;
    ts <- lift (py_int uts) ;;
    let last_ts := ts + 1 in
    order <- lift (Py.reversed tracks) ;;
    _ <- for_each (load_track vlcrc youtube_linker verbose) order ;;
    ret last_ts.

(** *** main *)

(** The part of [main] before the loop: the locals read from the command
    line ([limit], [user]) and from [config.json]. *)
Definition main_setup (limit : Z) (lfm_user : string) (config : json) : result Locals :=
  (host <- Py.getitem config "host" ;;
   port <- Py.getitem config "port" ;;
   lfm_key <- Py.getitem config "lastfm_key" ;;
   yt_key <- Py.getitem config "youtube_key" ;;
   window_min <- Py.getitem config "active_window_min" ;;
   window <- py_int window_min ;;
   awake_min <- Py.getitem config "awake_min" ;;
   awake <- py_int awake_min ;;
   asleep_min <- Py.getitem config "asleep_min" ;;
   asleep <- py_int asleep_min ;;
   Ok {| limit := limit; host := host; vlc_port := port;
         active_window_s := 60 * window; awake_s := 60 * awake;
         asleep_s := 60 * asleep;
         scrobbler := {| user := lfm_user; lastfm_key := lfm_key |};
         linker := {| youtube_key := yt_key |} |})%res.

Definition sleep (seconds : Z) : M unit :=
  _ <- emit (EvSleep seconds) ;;
  fun h => check (time_sleep E h seconds) h.

(** The first two statements of the [with] block: fetch the batch and
    load it; the value is the new [last_ts]. *)
Definition poll (L : Locals) (last_ts : Z) (vlcrc : VLCrc) : M Z :=
  tracks <- get_tracks (scrobbler L) last_ts (limit L) ;;
  load_tracks tracks last_ts vlcrc (linker L) true.

(** The rest of the [with] block: the status line, the activity test and
    the sleep.  The two log lines are recorded as [EvStatus] and
    [EvNextUpdate]; rendering their times as text is taken to succeed. *)
Definition wait (L : Locals) (last_ts : Z) : M unit :=
  now <- ask (clock E) ;;
  _ <- emit (EvStatus now last_ts) ;;
  if recently_active now last_ts (active_window_s L) then
    _ <- emit (EvNextUpdate true (awake_s L)) ;;
    sleep (awake_s L)
  else
    _ <- emit (EvNextUpdate false (asleep_s L)) ;;
    sleep (asleep_s L).

Definition cycle_body (L : Locals) (last_ts : Z) (vlcrc : VLCrc) : M Z :=
  last_ts <- poll L last_ts vlcrc ;;
  _ <- wait L last_ts ;;
  ret last_ts.

(** One turn of [while True]: from the value of [last_ts] before it to
    the value after it. *)
Definition cycle (L : Locals) (last_ts : Z) : M Z :=
  with_VLCrc (host L) (vlc_port L) (cycle_body L last_ts).

(** The first [n] turns of the loop, started with [last_ts]. *)
Fixpoint main_loop (L : Locals) (n : nat) (last_ts : Z) : M Z :=
  match n with
  | O => ret last_ts
  | S n' => last_ts' <- cycle L last_ts ;; main_loop L n' last_ts'
  end.

(** [main], cut after [n] turns of its loop; [last_ts] starts at 0. *)
Definition main (limit : Z) (lfm_user : string) (config : json) (n : nat) : M Z :=
  L <- lift (main_setup limit lfm_user config) ;;
  main_loop L n 0.

End Program.

(** ** Reading a trace *)

(** The messages written to the player, oldest first. *)
Definition writes (es : list event) : list (nat * string) :=
  flat_map (fun ev => match ev with EvWrite c m => [(c, m)] | _ => [] end) es.

(** The search requests, oldest first. *)
Definition searches (es : list event) : list (string * json * Z) :=
  flat_map (fun ev => match ev with EvSearch q k n => [(q, k, n)] | _ => [] end) es.

(** The lower bounds of the fetches, oldest first. *)
Definition fetches (es : list event) : list Z :=
  flat_map (fun ev => match ev with EvRecentTracks _ _ f _ => [f] | _ => [] end) es.

(** The sessions that are open after the calls [es], given those open
    before. *)
Fixpoint held_from (open : list nat) (es : list event) : list nat :=
  match es with
  | [] => open
  | EvConnect c _ _ :: es' => held_from (open ++ [c]) es'
  | EvClose c :: es' => held_from (filter (fun c' => negb (Nat.eqb c c')) open) es'
  | _ :: es' => held_from open es'
  end.

Definition held (es : list event) : list nat := held_from [] es.

(** The calls a resolution may make. *)
Definition is_lookup (ev : event) : bool :=
  match ev with
  | EvGetPage _ | EvSearch _ _ _ => true
  | _ => false
  end.

(** The calls the loading of a batch may make. *)
Definition is_load (ev : event) : bool :=
  match ev with
  | EvGetPage _ | EvSearch _ _ _ | EvWrite _ _ | EvPrint _ => true
  | _ => false
  end.

(** The calls of the body of a cycle, between opening and closing. *)
Definition is_body (ev : event) : bool :=
  match ev with
  | EvConnect _ _ _ | EvClose _ => false
  | _ => true
  end.

(** The seconds the cycle sleeps for, from the clock and the watermark. *)
Definition sleep_seconds (L : Locals) (now : Q) (last_ts : Z) : Z :=
  if recently_active now last_ts (active_window_s L) then awake_s L else asleep_s L.

(** The call that starts the sleep. *)
Definition is_sleep (ev : event) : bool :=
  match ev with
  | EvSleep _ => true
  | _ => false
  end.

(** The three calls that end the body of a cycle. *)
Definition closing (L : Locals) (now : Q) (last_ts : Z) : list event :=
  [EvStatus now last_ts;
   EvNextUpdate (recently_active now last_ts (active_window_s L)) (sleep_seconds L now last_ts);
   EvSleep (sleep_seconds L now last_ts)].

(** Every call of [m], from whatever history, is of the kind [P]. *)
Definition emits {A : Type} (P : event -> bool) (m : M A) : Prop :=
  forall h, Forall (fun ev => P ev = true) (calls (m h)).

(** ** Views of a track and of a search candidate, as the code reads them *)

(** [int(track['date']['uts'])] *)
Definition played_at (E : Env) (track : json) : result Z :=
  (date <- Py.getitem track "date" ;;
   uts <- Py.getitem date "uts" ;;
   py_int E uts)%res.

(** The line written for a url. *)
Definition enqueue_message (url : string) : string :=
  ("enqueue " ++ url ++ Py.newline)%string.

(** A search candidate as the loop reads it: a dictionary whose ["id"] is
    a dictionary. *)
Definition candidate_id (item : json) : option (list (string * json)) :=
  match item with
  | JDict d =>
      match Py.lookup "id" d with
      | Some (JDict id) => Some id
      | _ => None
      end
  | _ => None
  end.

(** The video identifier a candidate carries, if any. *)
Definition video_id_of (item : json) : option json :=
  match candidate_id item with
  | Some id => Py.lookup "videoId" id
  | None => None
  end.

(** A candidate that is well formed and carries no video identifier. *)
Definition without_id (item : json) : Prop :=
  candidate_id item <> None /\ video_id_of item = None.

(** The text searched for a track with the given name and artist. *)
Definition search_query (E : Env) (name author : json) : string :=
  (py_str E name ++ " " ++ py_str E author)%string.

(** The session a cycle started after the calls [h] holds, and the value
    its fetch gives. *)
Definition session (L : Locals) (h : list event) : VLCrc :=
  {| server := host L; port := vlc_port L; telnet := Some (List.length h) |}.

Definition opened (L : Locals) (h : list event) : list event :=
  h ++ [EvConnect (List.length h) (host L) (vlc_port L)].

Definition fetched (E : Env) (L : Locals) (last_ts : Z) (h : list event) : result json :=
  outcome (get_tracks E (scrobbler L) last_ts (limit L) (opened L h)).

(** The request of the cycle's fetch and the history when the loading of
    the fetched batch starts. *)
Definition request (L : Locals) (last_ts : Z) : event :=
  EvRecentTracks (user (scrobbler L)) (lastfm_key (scrobbler L)) last_ts (limit L).

Definition polled (L : Locals) (last_ts : Z) (h : list event) : list event :=
  opened L h ++ [request L last_ts].

(** ** A sample world

    A last.fm account with three scrobbles, two of whose pages embed a
    video, a search that knows the third, and a player that accepts
    everything. *)

Module Sample.

Definition track_record (name artist url uts : string) : json :=
  JDict [("artist", JDict [("#text", JStr artist)]);
         ("name", JStr name);
         ("url", JStr url);
         ("date", JDict [("uts", JStr uts)])].

Definition track_A : json := track_record "A" "Ann" "https://www.last.fm/music/Ann/_/A" "100".
Definition track_B : json := track_record "B" "Bob" "https://www.last.fm/music/Bob/_/B" "200".
Definition track_C : json := track_record "C" "Cyd" "https://www.last.fm/music/Cyd/_/C" "300".

Definition url_A : string := "https://www.youtube.com/watch?v=aaaaaaaaaaa".
Definition url_B : string := "https://www.youtube.com/watch?v=bbbbbbbbbbb".

Definition scrobbles : list json := [track_C; track_B; track_A].

Definition newer_than (E_int : json -> result Z) (since : Z) (track : json) : bool :=
  match (date <- Py.getitem track "date" ;; uts <- Py.getitem date "uts" ;; E_int uts)%res with
  | Ok ts => since <=? ts
  | Raise _ => false
  end.

Definition digits_only (v : json) : result Z :=
  match v with
  | JStr s => Ok (Py.digits_value 0 s)
  | _ => Raise TypeError
  end.

Definition pages (url : json) : result (list string) :=
  match url with
  | JStr u =>
      if String.eqb u "https://www.last.fm/music/Ann/_/A" then Ok ["https://www.youtube.com/watch?v=zzzzzzzzzzz"; url_A]
      else if String.eqb u "https://www.last.fm/music/Bob/_/B" then Ok [url_B]
      else Ok []
  | _ => Raise RequestException
  end.

Definition candidate (kind : string) (field value : string) : json :=
  JDict [("kind", JStr "youtube#searchResult");
         ("id", JDict [("kind", JStr kind); (field, JStr value)])].

Definition search_body : json :=
  JDict [("items", JList [candidate "youtube#channel" "channelId" "UCcccc";
                           candidate "youtube#video" "videoId" "ccccccccccc";
                           candidate "youtube#video" "videoId" "ddddddddddd"])].

Definition world : Env :=
  {| int_of_text := fun _ => Raise ValueError;
     str_of_value := fun _ => "";
     lastfm_recenttracks := fun _ _ _ since lim =>
       Ok (JDict [("recenttracks",
                   JDict [("track",
                           JList (firstn (Z.to_nat lim)
                                    (filter (newer_than digits_only since) scrobbles)))])]);
     lastfm_page := fun _ url => pages url;
     youtube_search := fun _ _ _ _ => Ok search_body;
     telnet_open := fun _ _ _ => None;
     telnet_write := fun _ _ _ => None;
     clock := fun _ => 1000%Q;
     time_sleep := fun _ _ => None |}.

(** The same world with the page of track A unreachable. *)
Definition pages_down (url : json) : result (list string) :=
  match url with
  | JStr u =>
      if String.eqb u "https://www.last.fm/music/Ann/_/A" then Raise RequestException
      else pages url
  | _ => Raise RequestException
  end.

Definition world_down : Env :=
  {| int_of_text := int_of_text world;
     str_of_value := str_of_value world;
     lastfm_recenttracks := lastfm_recenttracks world;
     lastfm_page := fun _ url => pages_down url;
     youtube_search := youtube_search world;
     telnet_open := telnet_open world;
     telnet_write := telnet_write world;
     clock := clock world;
     time_sleep := time_sleep world |}.

(** The same world with a search that answers with channels only: five of
    them, or two. *)
Definition channel (id : string) : json := candidate "youtube#channel" "channelId" id.

Definition channels_body (n : nat) : json :=
  JDict [("items", JList (repeat (channel "UCcccc") n))].

Definition world_channels (n : nat) : Env :=
  {| int_of_text := int_of_text world;
     str_of_value := str_of_value world;
     lastfm_recenttracks := lastfm_recenttracks world;
     lastfm_page := lastfm_page world;
     youtube_search := fun _ _ _ _ => Ok (channels_body n);
     telnet_open := telnet_open world;
     telnet_write := telnet_write world;
     clock := clock world;
     time_sleep := time_sleep world |}.

Definition locals : Locals :=
  {| limit := 25;
     host := JStr "127.0.0.1";
     vlc_port := JNum 4212;
     active_window_s := 60 * 15;
     awake_s := 60 * 1;
     asleep_s := 60 * 10;
     scrobbler := {| user := "someone"; lastfm_key := JStr "lfm" |};
     linker := {| youtube_key := JStr "yt" |} |}.

(** A session as the first cycle of a run opens it. *)
Definition vlc : VLCrc := session locals [].

Definition resolved (track : json) : string :=
  match Py.getitem track "name" with
  | Ok (JStr "A") => url_A
  | Ok (JStr "B") => url_B
  | _ => "https://www.youtube.com/watch?v=ccccccccccc"
  end.

End Sample.

(** ** Further views of a trace *)

(** Every call of [m], from whatever history, satisfies [P]. *)
Definition always {A : Type} (P : event -> Prop) (m : M A) : Prop :=
  forall h, Forall P (calls (m h)).

Definition is_search (ev : event) : bool :=
  match ev with
  | EvSearch _ _ _ => true
  | _ => false
  end.

(** If [ev] is a write, it sends an ASCII [enqueue] line to the session
    [c]. *)
Definition enqueue_line (c : nat) (ev : event) : Prop :=
  match ev with
  | EvWrite c' m => c' = c /\ Py.all_ascii m = true /\ exists url, m = enqueue_message url
  | _ => True
  end.

(** If [ev] is a fetch, it is the one [main] sends first for the command
    line [limit user] and the configuration [config]. *)
Definition first_request (limit : Z) (lfm_user : string) (config : json) (ev : event) : Prop :=
  match ev with
  | EvRecentTracks u k f l =>
      u = lfm_user /\ Py.getitem config "lastfm_key" = Ok k /\ f = 0 /\ l = limit
  | _ => True
  end.

(** ** Further sample data *)

Module Cases.

(** A track without a date. *)
Definition now_playing : json :=
  JDict [("artist", JDict [("#text", JStr "Dee")]);
         ("name", JStr "D");
         ("url", JStr "https://www.last.fm/music/Dee/_/D");
         ("@attr", JDict [("nowplaying", JStr "true")])].

(** A url with a byte outside ASCII. *)
Definition accented : string :=
  ("https://www.youtube.com/watch?v=" ++ String (ascii_of_nat 233) "aaaaaaaaaa")%string.

Definition world_accent : Env :=
  {| int_of_text := int_of_text Sample.world;
     str_of_value := str_of_value Sample.world;
     lastfm_recenttracks := lastfm_recenttracks Sample.world;
     lastfm_page := fun _ _ => Ok [accented];
     youtube_search := youtube_search Sample.world;
     telnet_open := telnet_open Sample.world;
     telnet_write := telnet_write Sample.world;
     clock := clock Sample.world;
     time_sleep := time_sleep Sample.world |}.

(** A world whose player refuses the connection. *)
Definition world_unreachable : Env :=
  {| int_of_text := int_of_text Sample.world;
     str_of_value := str_of_value Sample.world;
     lastfm_recenttracks := lastfm_recenttracks Sample.world;
     lastfm_page := lastfm_page Sample.world;
     youtube_search := youtube_search Sample.world;
     telnet_open := fun _ _ _ => Some OSError;
     telnet_write := telnet_write Sample.world;
     clock := clock Sample.world;
     time_sleep := time_sleep Sample.world |}.

(** A world in which last.fm answers with an error body. *)
Definition error_body : json :=
  JDict [("error", JNum 6); ("message", JStr "User not found")].

Definition world_error_body : Env :=
  {| int_of_text := int_of_text Sample.world;
     str_of_value := str_of_value Sample.world;
     lastfm_recenttracks := fun _ _ _ _ _ => Ok error_body;
     lastfm_page := lastfm_page Sample.world;
     youtube_search := youtube_search Sample.world;
     telnet_open := telnet_open Sample.world;
     telnet_write := telnet_write Sample.world;
     clock := clock Sample.world;
     time_sleep := time_sleep Sample.world |}.

(** A world in which last.fm is unreachable. *)
Definition world_offline : Env :=
  {| int_of_text := int_of_text Sample.world;
     str_of_value := str_of_value Sample.world;
     lastfm_recenttracks := fun _ _ _ _ _ => Raise RequestException;
     lastfm_page := lastfm_page Sample.world;
     youtube_search := youtube_search Sample.world;
     telnet_open := telnet_open Sample.world;
     telnet_write := telnet_write Sample.world;
     clock := clock Sample.world;
     time_sleep := time_sleep Sample.world |}.

(** The sample locals without a search key. *)
Definition locals_no_key : Locals :=
  {| limit := limit Sample.locals;
     host := host Sample.locals;
     vlc_port := vlc_port Sample.locals;
     active_window_s := active_window_s Sample.locals;
     awake_s := awake_s Sample.locals;
     asleep_s := asleep_s Sample.locals;
     scrobbler := scrobbler Sample.locals;
     linker := {| youtube_key := JNull |} |}.

(** A world whose search answers with five channels and then a video. *)
Definition six_candidates : list json :=
  repeat (Sample.channel "UCcccc") 5
    ++ [Sample.candidate "youtube#video" "videoId" "eeeeeeeeeee"].

Definition world_sixth : Env :=
  {| int_of_text := int_of_text Sample.world;
     str_of_value := str_of_value Sample.world;
     lastfm_recenttracks := lastfm_recenttracks Sample.world;
     lastfm_page := lastfm_page Sample.world;
     youtube_search := fun _ _ _ _ => Ok (JDict [("items", JList six_candidates)]);
     telnet_open := telnet_open Sample.world;
     telnet_write := telnet_write Sample.world;
     clock := clock Sample.world;
     time_sleep := time_sleep Sample.world |}.

(** A world in which the newest track of the batch has no date. *)
Definition world_now_playing : Env :=
  {| int_of_text := int_of_text Sample.world;
     str_of_value := str_of_value Sample.world;
     lastfm_recenttracks := fun _ _ _ _ _ =>
       Ok (JDict [("recenttracks",
                   JDict [("track", JList [now_playing; Sample.track_A])])]);
     lastfm_page := lastfm_page Sample.world;
     youtube_search := youtube_search Sample.world;
     telnet_open := telnet_open Sample.world;
     telnet_write := telnet_write Sample.world;
     clock := clock Sample.world;
     time_sleep := time_sleep Sample.world |}.

(** The contents of a [config.json]. *)
Definition config : json :=
  JDict [("host", JStr "127.0.0.1");
         ("port", JNum 4212);
         ("lastfm_key", JStr "lfm");
         ("youtube_key", JNull);
         ("active_window_min", JNum 15);
         ("awake_min", JStr "1");
         ("asleep_min", JNum 10)].

End Cases.

(** * Properties *)

(** ** Stepping through a computation *)

Lemma bind_silent {A B : Type} (m : M A) (f : A -> M B) (h : list event) (r : result A) :
  m h = (r, []) ->
  bind m f h = match r with Ok a => f a h | Raise e => (Raise e, []) end.
Proof.
  intros Hm. unfold bind. rewrite Hm. destruct r as [a|e]; [|reflexivity].
  rewrite app_nil_r. destruct (f a h); reflexivity.
Qed.

Lemma bind_lift {A B : Type} (r : result A) (f : A -> M B) (h : list event) :
  bind (lift r) f h = match r with Ok a => f a h | Raise e => (Raise e, []) end.
Proof. apply bind_silent. reflexivity. Qed.

Lemma bind_ret {A B : Type} (a : A) (f : A -> M B) (h : list event) :
  bind (ret a) f h = f a h.
Proof. apply (bind_silent (ret a) f h (Ok a)). reflexivity. Qed.

Lemma bind_emit {B : Type} (ev : event) (f : unit -> M B) (h : list event) :
  bind (emit ev) f h = (outcome (f tt (h ++ [ev])), ev :: calls (f tt (h ++ [ev]))).
Proof. unfold bind, emit, outcome, calls. destruct (f tt (h ++ [ev])); reflexivity. Qed.

Lemma bind_outcome_ok {A B : Type} (m : M A) (f : A -> M B) (h : list event) (b : B) :
  outcome (bind m f h) = Ok b ->
  exists a, outcome (m h) = Ok a /\ outcome (f a (h ++ calls (m h))) = Ok b.
Proof.
  unfold bind, outcome, calls. destruct (m h) as [[a|e] es]; simpl.
  - destruct (f a (h ++ es)) as [r es'] eqn:Hf. simpl. intros ->.
    exists a. rewrite Hf. auto.
  - discriminate.
Qed.

Lemma bind_calls_ok {A B : Type} (m : M A) (f : A -> M B) (h : list event) (a : A) :
  outcome (m h) = Ok a ->
  bind m f h = (outcome (f a (h ++ calls (m h))), calls (m h) ++ calls (f a (h ++ calls (m h)))).
Proof.
  unfold bind, outcome, calls. destruct (m h) as [r es]; simpl. intros ->.
  destruct (f a (h ++ es)); reflexivity.
Qed.

Lemma bind_raises {A B : Type} (m : M A) (f : A -> M B) (h : list event) (e : exn) :
  outcome (m h) = Raise e -> bind m f h = (Raise e, calls (m h)).
Proof.
  unfold bind, outcome, calls. destruct (m h) as [r es]; simpl. intros ->. reflexivity.
Qed.

(** ** What a computation may call *)

Lemma emits_ret {A : Type} (P : event -> bool) (a : A) : emits P (ret a).
Proof. intros h. constructor. Qed.

Lemma emits_raise {A : Type} (P : event -> bool) (e : exn) : emits P (@raise A e).
Proof. intros h. constructor. Qed.

Lemma emits_lift {A : Type} (P : event -> bool) (r : result A) : emits P (lift r).
Proof. intros h. constructor. Qed.

Lemma emits_oracle {A : Type} (P : event -> bool) (o : list event -> result A) :
  emits P (fun h => lift (o h) h).
Proof. intros h. constructor. Qed.

Lemma emits_check (P : event -> bool) (o : list event -> option exn) :
  emits P (fun h => check (o h) h).
Proof. intros h. destruct (o h); constructor. Qed.

Lemma emits_ask {A : Type} (P : event -> bool) (f : list event -> A) : emits P (ask f).
Proof. intros h. constructor. Qed.

Lemma emits_emit (P : event -> bool) (ev : event) : P ev = true -> emits P (emit ev).
Proof. intros HP h. constructor; [exact HP | constructor]. Qed.

Lemma emits_bind {A B : Type} (P : event -> bool) (m : M A) (f : A -> M B) :
  emits P m -> (forall a, emits P (f a)) -> emits P (bind m f).
Proof.
  intros Hm Hf h. specialize (Hm h). unfold bind, calls in *.
  destruct (m h) as [[a|e] es]; simpl in *; [|exact Hm].
  specialize (Hf a (h ++ es)). unfold calls in Hf.
  destruct (f a (h ++ es)) as [r es']. simpl in *.
  apply Forall_app. split; assumption.
Qed.

Lemma emits_for_each {A : Type} (P : event -> bool) (f : A -> M unit) (l : list A) :
  (forall x, emits P (f x)) -> emits P (for_each f l).
Proof.
  intros Hf. induction l as [|x l IH]; simpl.
  - apply emits_ret.
  - apply emits_bind; [apply Hf | intros _; exact IH].
Qed.

Lemma emits_weaken {A : Type} (P Q : event -> bool) (m : M A) :
  (forall ev, P ev = true -> Q ev = true) -> emits P m -> emits Q m.
Proof.
  intros HPQ Hm h. specialize (Hm h).
  eapply Forall_impl; [|exact Hm]. exact HPQ.
Qed.

Ltac trace_step :=
  first [ apply emits_bind; [|intros ?]
        | apply emits_ret | apply emits_raise | apply emits_lift
        | apply emits_oracle | apply emits_check | apply emits_ask
        | apply emits_emit; reflexivity ].

Section Facts.

Variable E : Env.

Lemma get_from_lastfm_emits (self : YoutubeLinker) (track : json) :
  emits is_lookup (_get_from_lastfm E self track).
Proof.
  unfold _get_from_lastfm. repeat trace_step.
  destruct (xpath_last _); trace_step.
Qed.

Lemma get_from_youtube_emits (self : YoutubeLinker) (track : json) :
  emits is_lookup (_get_from_youtube E self track).
Proof.
  unfold _get_from_youtube. destruct (is_none _); repeat trace_step.
Qed.

Lemma get_youtube_url_emits (self : YoutubeLinker) (track : json) :
  emits is_lookup (get_youtube_url E self track).
Proof.
  unfold get_youtube_url. apply emits_bind.
  - apply get_from_lastfm_emits.
  - intros [u|]; [apply emits_ret | apply get_from_youtube_emits].
Qed.

Lemma enqueue_emits (self : VLCrc) (url : string) : emits is_load (enqueue E self url).
Proof.
  unfold enqueue. destruct (telnet self); repeat trace_step.
Qed.

Lemma load_track_emits (vlcrc : VLCrc) (lk : YoutubeLinker) (verbose : bool) (track : json) :
  emits is_load (load_track E vlcrc lk verbose track).
Proof.
  unfold load_track. apply emits_bind.
  - apply emits_weaken with (P := is_lookup); [|apply get_youtube_url_emits].
    intros [] Hev; simpl in *; congruence.
  - intros [u|]; [|apply emits_ret].
    apply emits_bind; [apply enqueue_emits|]. intros _.
    destruct verbose; repeat trace_step.
Qed.

Lemma load_tracks_emits (tracks : json) (w : Z) (vlcrc : VLCrc) (lk : YoutubeLinker)
    (verbose : bool) :
  emits is_load (load_tracks E tracks w vlcrc lk verbose).
Proof.
  unfold load_tracks. apply emits_bind; [apply emits_lift|]. intros n.
  destruct (n =? 0); [apply emits_ret|].
  repeat (apply emits_bind; [apply emits_lift|intros ?]).
  apply emits_bind; [|intros ?; apply emits_ret].
  apply emits_for_each. intros x. apply load_track_emits.
Qed.

(** ** The value of load_tracks *)

Lemma load_tracks_empty (w : Z) (vlcrc : VLCrc) (lk : YoutubeLinker) (verbose : bool)
    (h : list event) :
  load_tracks E (JList []) w vlcrc lk verbose h = (Ok w, []).
Proof. reflexivity. Qed.

Lemma load_tracks_batch (t : json) (rest : list json) (w : Z) (vlcrc : VLCrc)
    (lk : YoutubeLinker) (verbose : bool) (h : list event) :
  load_tracks E (JList (t :: rest)) w vlcrc lk verbose h =
  match played_at E t with
  | Ok ts =>
      bind (for_each (load_track E vlcrc lk verbose) (rev (t :: rest)))
           (fun _ => ret (ts + 1)) h
  | Raise e => (Raise e, [])
  end.
Proof.
  unfold load_tracks. rewrite bind_lift.
  cbn [Py.len List.length].
  replace (Z.of_nat (S (List.length rest)) =? 0) with false
    by (symmetry; apply Z.eqb_neq; lia).
  rewrite bind_lift.
  assert (Hget : Py.getindex (JList (t :: rest)) 0 = Ok t).
  { unfold Py.getindex, Py.at_position, Py.position.
    cbn [List.length].
    replace (0 <=? 0) with true by reflexivity.
    replace (0 <? Z.of_nat (S (List.length rest))) with true
      by (symmetry; apply Z.ltb_lt; lia).
    reflexivity. }
  rewrite Hget. unfold played_at.
  rewrite bind_lift. destruct (Py.getitem t "date") as [date|e]; [|reflexivity].
  rewrite bind_lift. cbn [rbind]. destruct (Py.getitem date "uts") as [uts|e]; [|reflexivity].
  rewrite bind_lift. cbn [rbind]. destruct (py_int E uts) as [ts|e]; [|reflexivity].
  rewrite bind_lift. reflexivity.
Qed.

(** Whatever the resolutions do, a value returned for a batch that starts
    with [t] is the timestamp of [t] plus one. *)
Lemma load_tracks_returns (t : json) (rest : list json) (w : Z) (vlcrc : VLCrc)
    (lk : YoutubeLinker) (verbose : bool) (h : list event) (w' : Z) :
  outcome (load_tracks E (JList (t :: rest)) w vlcrc lk verbose h) = Ok w' ->
  exists ts, played_at E t = Ok ts /\ w' = ts + 1.
Proof.
  rewrite load_tracks_batch. destruct (played_at E t) as [ts|e]; [|discriminate].
  intros H. apply bind_outcome_ok in H. destruct H as [[] [_ H]].
  exists ts. split; [reflexivity|]. unfold outcome, ret in H; cbn [fst] in H. congruence.
Qed.

(** A value returned for any fetched value is the old one or the first
    timestamp plus one. *)
Lemma load_tracks_value (tracks : json) (w : Z) (vlcrc : VLCrc) (lk : YoutubeLinker)
    (verbose : bool) (h : list event) (w' : Z) :
  outcome (load_tracks E tracks w vlcrc lk verbose h) = Ok w' ->
  w' = w \/
  exists t rest ts, tracks = JList (t :: rest) /\ played_at E t = Ok ts /\ w' = ts + 1.
Proof.
  intros H. destruct tracks as [| b | n | s | [|t rest] | d].
  - discriminate.
  - discriminate.
  - discriminate.
  - (* a text: empty, or its first character has no ['date'] *)
    unfold load_tracks in H. rewrite bind_lift in H. cbn [Py.len] in H.
    destruct s as [|c s].
    + left. vm_compute in H. congruence.
    + exfalso. revert H.
      replace (Z.of_nat (String.length (String c s)) =? 0) with false
        by (symmetry; apply Z.eqb_neq; cbn [String.length]; lia).
      rewrite bind_lift.
      assert (Hget : Py.getindex (JStr (String c s)) 0 = Ok (JStr (String c EmptyString))).
      { unfold Py.getindex, Py.at_position, Py.position. cbn [Py.chars List.length].
        replace (0 <=? 0) with true by reflexivity.
        replace (0 <? Z.of_nat (S (List.length (Py.chars s)))) with true
          by (symmetry; apply Z.ltb_lt; lia).
        reflexivity. }
      rewrite Hget, bind_lift. discriminate.
  - left. rewrite load_tracks_empty in H. unfold outcome, ret in H; cbn [fst] in H. congruence.
  - right. apply load_tracks_returns in H. destruct H as [ts [H1 H2]].
    exists t, rest, ts. auto.
  - (* a dictionary: empty, or [tracks[0]] is a KeyError *)
    unfold load_tracks in H. rewrite bind_lift in H. cbn [Py.len] in H.
    destruct d as [|kv d].
    + left. vm_compute in H. congruence.
    + exfalso. revert H.
      replace (Z.of_nat (List.length (kv :: d)) =? 0) with false
        by (symmetry; apply Z.eqb_neq; cbn [List.length]; lia).
      rewrite bind_lift. discriminate.
Qed.

Lemma for_each_ok {A : Type} (f : A -> M unit) (l : list A) (h : list event) :
  (forall x h', In x l -> outcome (f x h') = Ok tt) ->
  outcome (for_each f l h) = Ok tt.
Proof.
  revert h. induction l as [|x l IH]; intros h Hf; [reflexivity|].
  cbn [for_each]. rewrite (bind_calls_ok _ _ _ tt) by (apply Hf; left; reflexivity).
  cbn [outcome fst]. apply IH. intros y h' Hy. apply Hf. right. exact Hy.
Qed.

(** The largest of a non-empty list of timestamps. *)
Lemma newest_first_maximum (ts : Z) (tss : list Z) :
  Sorted Z.ge (ts :: tss) -> fold_right Z.max ts tss = ts.
Proof.
  intros HS. apply Sorted_StronglySorted in HS.
  2:{ intros x y z Hxy Hyz. lia. }
  apply StronglySorted_inv in HS. destruct HS as [_ HF].
  induction HF as [|x l Hx HF IH]; [reflexivity|].
  cbn [fold_right]. rewrite IH. lia.
Qed.

(** ** Writing to the player *)

Lemma all_ascii_app (a b : string) :
  Py.all_ascii (a ++ b)%string = Py.all_ascii a && Py.all_ascii b.
Proof.
  induction a as [|c a IH]; [reflexivity|].
  cbn [String.append Py.all_ascii]. rewrite IH. apply andb_assoc.
Qed.

Lemma enqueue_message_ascii (url : string) :
  Py.all_ascii (enqueue_message url) = Py.all_ascii url.
Proof.
  unfold enqueue_message. rewrite !all_ascii_app.
  change (Py.all_ascii "enqueue ") with true.
  change (Py.all_ascii Py.newline) with true.
  rewrite andb_true_r. reflexivity.
Qed.

Lemma enqueue_ok (self : VLCrc) (conn : nat) (url : string) (h : list event) :
  telnet self = Some conn ->
  Py.all_ascii url = true ->
  telnet_write E (h ++ [EvWrite conn (enqueue_message url)]) conn (enqueue_message url) = None ->
  enqueue E self url h = (Ok tt, [EvWrite conn (enqueue_message url)]).
Proof.
  intros Htel Hascii Hwrite. unfold enqueue. rewrite Htel.
  fold (enqueue_message url). rewrite bind_lift.
  unfold Py.encode_ascii. rewrite enqueue_message_ascii, Hascii.
  rewrite bind_emit. rewrite Hwrite. reflexivity.
Qed.

Lemma writes_app (a b : list event) : writes (a ++ b) = writes a ++ writes b.
Proof. apply flat_map_app. Qed.

Lemma writes_lookup (es : list event) :
  Forall (fun ev => is_lookup ev = true) es -> writes es = [].
Proof.
  induction 1 as [|ev es Hev _ IH]; [reflexivity|].
  destruct ev; try discriminate; exact IH.
Qed.

Lemma searches_app (a b : list event) : searches (a ++ b) = searches a ++ searches b.
Proof. apply flat_map_app. Qed.

(** One turn of the [for] loop when the resolution gives [r]: nothing is
    written for an absent result, one line for a url. *)
Lemma load_track_resolved (vlcrc : VLCrc) (lk : YoutubeLinker) (verbose : bool)
    (conn : nat) (track : json) (h : list event) (r : option string) :
  telnet vlcrc = Some conn ->
  outcome (get_youtube_url E lk track h) = Ok r ->
  (forall u, r = Some u -> Py.all_ascii u = true) ->
  (forall h' m, telnet_write E h' conn m = None) ->
  (verbose = true -> exists n, Py.getitem track "name" = Ok n) ->
  outcome (load_track E vlcrc lk verbose track h) = Ok tt /\
  writes (calls (load_track E vlcrc lk verbose track h)) =
    match r with Some u => [(conn, enqueue_message u)] | None => [] end.
Proof.
  intros Htel Hr Hascii Hwrite Hname.
  unfold load_track. rewrite (bind_calls_ok _ _ _ r Hr).
  cbn [outcome calls fst snd]. rewrite writes_app.
  rewrite (writes_lookup _ (get_youtube_url_emits lk track h)).
  destruct r as [u|]; [|split; reflexivity].
  set (h1 := h ++ calls (get_youtube_url E lk track h)).
  assert (Henq : enqueue E vlcrc u h1 = (Ok tt, [EvWrite conn (enqueue_message u)])).
  { apply enqueue_ok; auto. }
  assert (Hout : outcome (enqueue E vlcrc u h1) = Ok tt) by (rewrite Henq; reflexivity).
  rewrite (bind_calls_ok _ _ _ tt Hout). rewrite Henq.
  cbn [outcome calls fst snd].
  destruct verbose.
  - destruct (Hname eq_refl) as [n Hn]. rewrite bind_lift, Hn.
    split; reflexivity.
  - split; reflexivity.
Qed.

(** The loop over a list of tracks each of which resolves, to [res]. *)
Lemma for_each_resolved (vlcrc : VLCrc) (lk : YoutubeLinker) (verbose : bool)
    (conn : nat) (res : json -> option string) (l : list json) (h : list event) :
  telnet vlcrc = Some conn ->
  (forall tr h', In tr l -> outcome (get_youtube_url E lk tr h') = Ok (res tr)) ->
  (forall tr u, In tr l -> res tr = Some u -> Py.all_ascii u = true) ->
  (forall h' m, telnet_write E h' conn m = None) ->
  (verbose = true -> forall tr, In tr l -> exists n, Py.getitem tr "name" = Ok n) ->
  outcome (for_each (load_track E vlcrc lk verbose) l h) = Ok tt /\
  writes (calls (for_each (load_track E vlcrc lk verbose) l h)) =
    flat_map (fun tr => match res tr with
                        | Some u => [(conn, enqueue_message u)]
                        | None => []
                        end) l.
Proof.
  intros Htel Hres Hascii Hwrite Hname. revert h.
  induction l as [|tr l IH]; intros h; [split; reflexivity|].
  destruct (load_track_resolved vlcrc lk verbose conn tr h (res tr)) as [Ho Hw]; auto.
  - apply Hres. left. reflexivity.
  - intros u Hu. apply (Hascii tr); [left; reflexivity | exact Hu].
  - intros Hv. apply Hname; [exact Hv | left; reflexivity].
  - cbn [for_each]. rewrite (bind_calls_ok _ _ _ tt Ho).
    cbn [outcome calls fst snd flat_map]. rewrite writes_app, Hw.
    destruct (IH) with (h := h ++ calls (load_track E vlcrc lk verbose tr h)) as [Ho' Hw'].
    + intros x h' Hx. apply Hres. right. exact Hx.
    + intros x u Hx. apply Hascii. right. exact Hx.
    + intros Hv x Hx. apply Hname; [exact Hv | right; exact Hx].
    + unfold outcome, calls in *. rewrite Ho', Hw'. split; reflexivity.
Qed.

(** A batch each of whose tracks resolves, to [res]: the new watermark and
    the lines written, in the order of the reversed batch. *)
Lemma load_tracks_resolved (vlcrc : VLCrc) (lk : YoutubeLinker) (verbose : bool)
    (conn : nat) (res : json -> option string) (t : json) (rest : list json)
    (ts w : Z) (h : list event) :
  played_at E t = Ok ts ->
  telnet vlcrc = Some conn ->
  (forall tr h', In tr (t :: rest) -> outcome (get_youtube_url E lk tr h') = Ok (res tr)) ->
  (forall tr u, In tr (t :: rest) -> res tr = Some u -> Py.all_ascii u = true) ->
  (forall h' m, telnet_write E h' conn m = None) ->
  (verbose = true -> forall tr, In tr (t :: rest) -> exists n, Py.getitem tr "name" = Ok n) ->
  outcome (load_tracks E (JList (t :: rest)) w vlcrc lk verbose h) = Ok (ts + 1) /\
  writes (calls (load_tracks E (JList (t :: rest)) w vlcrc lk verbose h)) =
    flat_map (fun tr => match res tr with
                        | Some u => [(conn, enqueue_message u)]
                        | None => []
                        end) (rev (t :: rest)).
Proof.
  intros Hts Htel Hres Hascii Hwrite Hname.
  rewrite load_tracks_batch, Hts.
  destruct (for_each_resolved vlcrc lk verbose conn res (rev (t :: rest)) h) as [Ho Hw]; auto.
  - intros tr h' Hin. apply Hres. apply in_rev. exact Hin.
  - intros tr u Hin. apply Hascii. apply in_rev. exact Hin.
  - intros Hv tr Hin. apply Hname; [exact Hv | apply in_rev; exact Hin].
  - rewrite (bind_calls_ok _ _ _ tt Ho). cbn [outcome calls fst snd ret].
    rewrite app_nil_r. split; [reflexivity | exact Hw].
Qed.

(** ** The shape of a cycle *)

Lemma wait_run (L : Locals) (w : Z) (h : list event) :
  let now := clock E h in
  let active := recently_active now w (active_window_s L) in
  let d := sleep_seconds L now w in
  let es := [EvStatus now w; EvNextUpdate active d; EvSleep d] in
  wait E L w h =
  (match time_sleep E (h ++ es) d with None => Ok tt | Some e => Raise e end, es).
Proof.
  cbv zeta. unfold wait, sleep_seconds.
  rewrite (bind_silent _ _ h (Ok (clock E h))) by reflexivity.
  rewrite bind_emit.
  destruct (recently_active (clock E h) w (active_window_s L));
    rewrite bind_emit; unfold sleep; rewrite bind_emit;
    cbn [outcome calls fst snd]; rewrite <- !app_assoc; cbn [app];
    destruct (time_sleep E _ _); reflexivity.
Qed.

Lemma cycle_body_run (L : Locals) (w : Z) (vlcrc : VLCrc) (h : list event) :
  cycle_body E L w vlcrc h =
  match poll E L w vlcrc h with
  | (Ok w', es) =>
      (match outcome (wait E L w' (h ++ es)) with
       | Ok _ => Ok w'
       | Raise e => Raise e
       end,
       es ++ calls (wait E L w' (h ++ es)))
  | (Raise e, es) => (Raise e, es)
  end.
Proof.
  unfold cycle_body, bind at 1.
  destruct (poll E L w vlcrc h) as [[w'|e] es]; [|reflexivity].
  unfold bind, outcome, calls.
  destruct (wait E L w' (h ++ es)) as [[[]|e] es']; cbn [fst snd ret]; [|reflexivity].
  rewrite app_nil_r. reflexivity.
Qed.

Lemma cycle_run (L : Locals) (w : Z) (h : list event) :
  cycle E L w h =
  match telnet_open E h (host L) (vlc_port L) with
  | Some e => (Raise e, [])
  | None =>
      (outcome (cycle_body E L w (session L h) (opened L h)),
       EvConnect (List.length h) (host L) (vlc_port L)
         :: calls (cycle_body E L w (session L h) (opened L h))
         ++ [EvClose (List.length h)])
  end.
Proof.
  unfold cycle, with_VLCrc, bind at 1, VLCrc_init.
  destruct (telnet_open E h (host L) (vlc_port L)); [reflexivity|].
  fold (session L h). fold (opened L h).
  unfold finally, outcome, calls.
  destruct (cycle_body E L w (session L h) (opened L h)) as [r es].
  cbn [fst snd]. unfold VLCrc_exit. cbn [telnet session].
  rewrite bind_calls_ok with (a := {| server := host L; port := vlc_port L; telnet := None |}).
  2:{ rewrite bind_emit. reflexivity. }
  rewrite bind_emit. cbn [outcome calls fst snd ret app].
  reflexivity.
Qed.

Lemma poll_run (L : Locals) (w : Z) (vlcrc : VLCrc) (h : list event) :
  let req := EvRecentTracks (user (scrobbler L)) (lastfm_key (scrobbler L)) w (limit L) in
  poll E L w vlcrc h =
  match outcome (get_tracks E (scrobbler L) w (limit L) h) with
  | Ok tracks =>
      (outcome (load_tracks E tracks w vlcrc (linker L) true (h ++ [req])),
       req :: calls (load_tracks E tracks w vlcrc (linker L) true (h ++ [req])))
  | Raise e => (Raise e, [req])
  end.
Proof.
  cbv zeta. unfold poll.
  assert (Hget : get_tracks E (scrobbler L) w (limit L) h =
            (outcome (get_tracks E (scrobbler L) w (limit L) h),
             [EvRecentTracks (user (scrobbler L)) (lastfm_key (scrobbler L)) w (limit L)])).
  { unfold get_tracks. rewrite bind_emit. cbn [outcome calls fst snd].
    set (h1 := h ++ _).
    rewrite (bind_silent _ _ h1 (lastfm_recenttracks E h1 (user (scrobbler L))
               (lastfm_key (scrobbler L)) w (limit L))) by reflexivity.
    destruct (lastfm_recenttracks E h1 _ _ _ _) as [body|e]; [|reflexivity].
    rewrite bind_lift. destruct (Py.getitem body "recenttracks") as [rt|e]; reflexivity. }
  destruct (outcome (get_tracks E (scrobbler L) w (limit L) h)) as [tracks|e] eqn:Ho.
  - rewrite (bind_calls_ok _ _ _ tracks Ho). rewrite Hget. reflexivity.
  - rewrite (bind_raises _ _ _ e Ho). rewrite Hget. reflexivity.
Qed.


(** The value of a cycle is the value of loading what it fetched. *)
Lemma cycle_value (L : Locals) (w : Z) (h : list event) (w' : Z) :
  outcome (cycle E L w h) = Ok w' ->
  exists tracks,
    fetched E L w h = Ok tracks /\
    outcome (load_tracks E tracks w (session L h) (linker L) true (polled L w h)) = Ok w'.
Proof.
  rewrite cycle_run. destruct (telnet_open E h (host L) (vlc_port L)); [discriminate|].
  cbn [outcome fst]. rewrite cycle_body_run.
  pose proof (poll_run L w (session L h) (opened L h)) as Hpoll. cbv zeta in Hpoll.
  fold (request L w) in Hpoll. fold (polled L w h) in Hpoll.
  fold (fetched E L w h) in Hpoll.
  rewrite Hpoll. destruct (fetched E L w h) as [tracks|e]; [|discriminate].
  destruct (outcome (load_tracks E tracks w (session L h) (linker L) true (polled L w h)))
    as [x|e] eqn:Hl; [|discriminate].
  cbn [fst]. destruct (outcome (wait E L x _)); [|discriminate].
  intros H. exists tracks. split; [reflexivity|].
  unfold outcome in H. cbn [fst] in H. rewrite Hl. exact H.
Qed.

(** ** Orders of timestamps *)

Lemma ascending_snoc (l : list Z) (a : Z) :
  StronglySorted Z.le l -> Forall (fun x => x <= a) l -> StronglySorted Z.le (l ++ [a]).
Proof.
  induction 1 as [|x l HS IH Hx]; intros Ha; cbn [app].
  - constructor; constructor.
  - inversion Ha as [|? ? Hxa Hla]; subst. constructor.
    + apply IH. exact Hla.
    + apply Forall_app. split; [exact Hx | constructor; [exact Hxa | constructor]].
Qed.

Lemma newest_first_reversed (l : list Z) : Sorted Z.ge l -> Sorted Z.le (rev l).
Proof.
  intros HS. apply Sorted_StronglySorted in HS.
  2:{ intros x y z Hxy Hyz. lia. }
  apply StronglySorted_Sorted.
  induction HS as [|a l HS IH Ha]; [constructor|].
  cbn [rev]. apply ascending_snoc; [exact IH|].
  apply Forall_rev. eapply Forall_impl; [|exact Ha]. intros x Hx. cbv beta in Hx. lia.
Qed.


Lemma played_at_reversed (tracks : list json) (tss : list Z) :
  Forall2 (fun tr x => played_at E tr = Ok x) tracks tss ->
  Forall2 (fun tr x => played_at E tr = Ok x) (rev tracks) (rev tss).
Proof.
  induction 1 as [|tr x tracks tss Hx _ IH]; [constructor|].
  cbn [rev]. apply Forall2_app; [exact IH | constructor; [exact Hx | constructor]].
Qed.

(** ** The watermark *)

(** C1: for every non-empty fetched batch ordered newest first, the
    watermark after the cycle is the largest playedAt of the batch plus
    one.  Whatever value [load_tracks] returns is that one; it does return
    it when no turn of the loop raises; and the value of the cycle that
    fetched the batch is that one. *)
Theorem watermark_is_newest_plus_one (t : json) (rest : list json) (ts : Z)
    (tss : list Z) (w : Z) (vlcrc : VLCrc) (lk : YoutubeLinker) (verbose : bool)
    (h : list event) :
  Forall2 (fun tr x => played_at E tr = Ok x) (t :: rest) (ts :: tss) ->
  Sorted Z.ge (ts :: tss) ->
  (forall w',
      outcome (load_tracks E (JList (t :: rest)) w vlcrc lk verbose h) = Ok w' ->
      w' = fold_right Z.max ts tss + 1) /\
  ((forall tr h', In tr (t :: rest) ->
                  outcome (load_track E vlcrc lk verbose tr h') = Ok tt) ->
   outcome (load_tracks E (JList (t :: rest)) w vlcrc lk verbose h) =
     Ok (fold_right Z.max ts tss + 1)) /\
  (forall L h0 w',
      fetched E L w h0 = Ok (JList (t :: rest)) ->
      outcome (cycle E L w h0) = Ok w' ->
      w' = fold_right Z.max ts tss + 1).
Proof.
  intros Hts Hsorted. rewrite (newest_first_maximum ts tss Hsorted).
  inversion Hts as [|? ? ? ? Ht _]; subst.
  split; [|split].
  - intros w' Hw'. apply load_tracks_returns in Hw'.
    destruct Hw' as [ts' [Hts' ->]]. congruence.
  - intros Hloop. rewrite load_tracks_batch, Ht.
    rewrite (bind_calls_ok _ _ _ tt).
    + reflexivity.
    + apply for_each_ok. intros x h' Hx. apply Hloop. apply in_rev. exact Hx.
  - intros L h0 w' Hfetch Hcycle. apply cycle_value in Hcycle.
    destruct Hcycle as [tracks [Hf Hl]]. rewrite Hfetch in Hf. injection Hf as <-.
    apply load_tracks_returns in Hl. destruct Hl as [ts' [Hts' ->]]. congruence.
Qed.

(** ** The order of the lines written *)

(** A call of [enqueue] on an open session: the line is written and the
    call returns, or it raises before or after the write. *)
Lemma enqueue_cases (self : VLCrc) (conn : nat) (u : string) (h : list event) :
  telnet self = Some conn ->
  enqueue E self u h = (Ok tt, [EvWrite conn (enqueue_message u)]) \/
  (exists e, enqueue E self u h = (Raise e, [])) \/
  (exists e, enqueue E self u h = (Raise e, [EvWrite conn (enqueue_message u)])).
Proof.
  intros Htel. unfold enqueue. rewrite Htel. fold (enqueue_message u).
  rewrite bind_lift. unfold Py.encode_ascii.
  destruct (Py.all_ascii (enqueue_message u)).
  - rewrite bind_emit.
    destruct (telnet_write E (h ++ [EvWrite conn (enqueue_message u)]) conn
                (enqueue_message u)) as [e|].
    + right. right. exists e. reflexivity.
    + left. reflexivity.
  - right. left. exists UnicodeEncodeError. reflexivity.
Qed.

(** One turn of the loop for a track that resolves to [u]: either the
    line for [u] is written and the turn ends well, or the turn raises,
    with that line written or nothing written. *)
Lemma load_track_writes (vlcrc : VLCrc) (lk : YoutubeLinker) (verbose : bool)
    (conn : nat) (track : json) (u : string) (h : list event) :
  telnet vlcrc = Some conn ->
  outcome (get_youtube_url E lk track h) = Ok (Some u) ->
  let run := load_track E vlcrc lk verbose track h in
  (outcome run = Ok tt /\ writes (calls run) = [(conn, enqueue_message u)]) \/
  (exists e, outcome run = Raise e /\
             (writes (calls run) = [] \/ writes (calls run) = [(conn, enqueue_message u)])).
Proof.
  intros Htel Hr. cbv zeta. unfold load_track.
  rewrite (bind_calls_ok _ _ _ (Some u) Hr).
  cbn [outcome calls fst snd]. rewrite writes_app.
  rewrite (writes_lookup _ (get_youtube_url_emits lk track h)). cbn [app].
  set (h1 := h ++ calls (get_youtube_url E lk track h)).
  destruct (enqueue_cases vlcrc conn u h1 Htel) as [Henq | [[e Henq] | [e Henq]]].
  - rewrite (bind_calls_ok _ _ _ tt) by (rewrite Henq; reflexivity).
    rewrite Henq. cbn [outcome calls fst snd].
    destruct verbose.
    + rewrite bind_lift. destruct (Py.getitem track "name") as [n|e].
      * left. split; reflexivity.
      * right. exists e. split; [reflexivity | right; reflexivity].
    + left. split; reflexivity.
  - rewrite (bind_raises _ _ _ e) by (rewrite Henq; reflexivity).
    rewrite Henq. right. exists e. split; [reflexivity | left; reflexivity].
  - rewrite (bind_raises _ _ _ e) by (rewrite Henq; reflexivity).
    rewrite Henq. right. exists e. split; [reflexivity | right; reflexivity].
Qed.

(** The loop over tracks that all resolve: the lines written are those of
    the first tracks of the list, in its order, and those of all of them
    when the loop ends well. *)
Lemma for_each_writes (vlcrc : VLCrc) (lk : YoutubeLinker) (verbose : bool)
    (conn : nat) (url_of : json -> string) (l : list json) (h : list event) :
  telnet vlcrc = Some conn ->
  (forall tr h', In tr l -> outcome (get_youtube_url E lk tr h') = Ok (Some (url_of tr))) ->
  let run := for_each (load_track E vlcrc lk verbose) l h in
  let lines := map (fun tr => (conn, enqueue_message (url_of tr))) l in
  (exists k, writes (calls run) = firstn k lines) /\
  (outcome run = Ok tt -> writes (calls run) = lines).
Proof.
  intros Htel. revert h. induction l as [|tr l IH]; intros h Hres; cbv zeta.
  - split; [exists O; reflexivity | reflexivity].
  - cbn [for_each map].
    assert (Hres' : forall x h', In x l ->
              outcome (get_youtube_url E lk x h') = Ok (Some (url_of x))).
    { intros x h' Hx. apply Hres. right. exact Hx. }
    destruct (load_track_writes vlcrc lk verbose conn tr (url_of tr) h Htel)
      as [[Ho Hw] | [e [Ho Hw]]].
    + apply Hres. left. reflexivity.
    + rewrite (bind_calls_ok _ _ _ tt Ho). cbn [outcome calls fst snd].
      rewrite writes_app, Hw.
      destruct (IH (h ++ calls (load_track E vlcrc lk verbose tr h)) Hres') as [[k Hk] Hall].
      cbv zeta in Hk, Hall. unfold calls, outcome in *. split.
      * exists (S k). rewrite Hk. reflexivity.
      * intros Hok. rewrite (Hall Hok). reflexivity.
    + rewrite (bind_raises _ _ _ e Ho). cbn [outcome calls fst snd]. split.
      * destruct Hw as [Hw | Hw]; rewrite Hw; [exists O | exists 1%nat]; reflexivity.
      * discriminate.
Qed.

(** C2: for a batch ordered newest first in which every event resolves to
    a url, the lines written to the player are those of the events taken
    oldest first: always a leading part of that list, and all of it, with
    the watermark at the newest timestamp plus one, when the writes
    succeed.  (For the batch [B at 200; A at 100]: the line of A, then the
    line of B, and 201.) *)
Theorem enqueue_order_is_chronological (t : json) (rest : list json) (ts : Z)
    (tss : list Z) (w : Z) (vlcrc : VLCrc) (conn : nat) (lk : YoutubeLinker)
    (verbose : bool) (url_of : json -> string) (h : list event) :
  Forall2 (fun tr x => played_at E tr = Ok x) (t :: rest) (ts :: tss) ->
  Sorted Z.ge (ts :: tss) ->
  telnet vlcrc = Some conn ->
  (forall tr h', In tr (t :: rest) ->
                 outcome (get_youtube_url E lk tr h') = Ok (Some (url_of tr))) ->
  let run := load_tracks E (JList (t :: rest)) w vlcrc lk verbose h in
  let oldest_first := rev (t :: rest) in
  let lines := map (fun tr => (conn, enqueue_message (url_of tr))) oldest_first in
  Forall2 (fun tr x => played_at E tr = Ok x) oldest_first (rev (ts :: tss)) /\
  Sorted Z.le (rev (ts :: tss)) /\
  (exists k, writes (calls run) = firstn k lines) /\
  (forall w', outcome run = Ok w' -> w' = ts + 1 /\ writes (calls run) = lines) /\
  ((forall tr, In tr (t :: rest) -> Py.all_ascii (url_of tr) = true) ->
   (forall h' m, telnet_write E h' conn m = None) ->
   (verbose = true -> forall tr, In tr (t :: rest) -> exists n, Py.getitem tr "name" = Ok n) ->
   outcome run = Ok (ts + 1) /\ writes (calls run) = lines).
Proof.
  intros Hts Hsorted Htel Hres. cbv zeta.
  assert (Ht : played_at E t = Ok ts) by (inversion Hts; assumption).
  assert (Hres' : forall tr h', In tr (rev (t :: rest)) ->
            outcome (get_youtube_url E lk tr h') = Ok (Some (url_of tr))).
  { intros tr h' Hin. apply Hres. apply in_rev. exact Hin. }
  destruct (for_each_writes vlcrc lk verbose conn url_of (rev (t :: rest)) h Htel Hres')
    as [[k Hk] Hall]. cbv zeta in Hk, Hall.
  assert (Hcalls : calls (load_tracks E (JList (t :: rest)) w vlcrc lk verbose h) =
                   calls (for_each (load_track E vlcrc lk verbose) (rev (t :: rest)) h)).
  { rewrite load_tracks_batch, Ht. unfold bind, calls.
    destruct (for_each _ _ h) as [[[]|e] es]; cbn [fst snd ret]; [|reflexivity].
    apply app_nil_r. }
  split; [apply played_at_reversed; exact Hts|].
  split; [apply newest_first_reversed; exact Hsorted|].
  split; [exists k; rewrite Hcalls; exact Hk|].
  split.
  - intros w' Hw'. split.
    + apply load_tracks_returns in Hw'. destruct Hw' as [ts' [Hts' ->]]. congruence.
    + rewrite Hcalls. apply Hall.
      rewrite load_tracks_batch, Ht in Hw'. apply bind_outcome_ok in Hw'.
      destruct Hw' as [[] [Hw' _]]. exact Hw'.
  - intros Hascii Hwrite Hname.
    destruct (load_tracks_resolved vlcrc lk verbose conn (fun tr => Some (url_of tr))
                t rest ts w h)
      as [Ho Hw]; [exact Ht | exact Htel | exact Hres | | exact Hwrite | exact Hname | ].
    + intros tr u Hin Hu. injection Hu as <-. apply Hascii. exact Hin.
    + split; [exact Ho|]. rewrite Hw. clear.
      induction (rev (t :: rest)) as [|x l IH]; [reflexivity|].
      cbn [flat_map map app]. rewrite IH. reflexivity.
Qed.

(** ** Resolution, first tier *)

Lemma xpath_last_some (values : list string) :
  values <> [] -> xpath_last values = [last values ""%string].
Proof.
  induction values as [|v values IH]; [congruence|]. intros _.
  destruct values as [|v' values]; [reflexivity|].
  change (xpath_last (v :: v' :: values)) with (xpath_last (v' :: values)).
  change (last (v :: v' :: values) ""%string) with (last (v' :: values) ""%string).
  apply IH. discriminate.
Qed.

Lemma get_from_lastfm_run (lk : YoutubeLinker) (track url : json) (h : list event) :
  Py.getitem track "url" = Ok url ->
  _get_from_lastfm E lk track h =
  (match lastfm_page E (h ++ [EvGetPage url]) url with
   | Ok values => Ok (match xpath_last values with [] => None | link :: _ => Some link end)
   | Raise e => Raise e
   end, [EvGetPage url]).
Proof.
  intros Hurl. unfold _get_from_lastfm. rewrite bind_lift, Hurl, bind_emit.
  set (h1 := h ++ [EvGetPage url]).
  rewrite (bind_silent _ _ h1 (lastfm_page E h1 url)) by reflexivity.
  destruct (lastfm_page E h1 url) as [values|e]; [|reflexivity].
  destruct (xpath_last values); reflexivity.
Qed.

(** C3: when the page of the event embeds one or more video links, the
    resolution returns the last of them in document order and makes no
    search request: its only call is the fetch of the page. *)
Theorem embedded_link_short_circuits (lk : YoutubeLinker) (track url : json)
    (values : list string) (h : list event) :
  Py.getitem track "url" = Ok url ->
  lastfm_page E (h ++ [EvGetPage url]) url = Ok values ->
  values <> [] ->
  outcome (_get_from_lastfm E lk track h) = Ok (Some (last values ""%string)) /\
  get_youtube_url E lk track h = (Ok (Some (last values ""%string)), [EvGetPage url]) /\
  searches (calls (get_youtube_url E lk track h)) = [].
Proof.
  intros Hurl Hpage Hvalues.
  pose proof (get_from_lastfm_run lk track url h Hurl) as Hrun.
  rewrite Hpage, (xpath_last_some values Hvalues) in Hrun.
  assert (Hget : get_youtube_url E lk track h =
                 (Ok (Some (last values ""%string)), [EvGetPage url])).
  { unfold get_youtube_url.
    rewrite (bind_calls_ok _ _ _ (Some (last values ""%string)))
      by (rewrite Hrun; reflexivity).
    rewrite Hrun. reflexivity. }
  split; [rewrite Hrun; reflexivity|].
  split; [exact Hget|]. rewrite Hget. reflexivity.
Qed.

(** ** Resolution, second tier *)

Lemma getindex_middle (seen : list json) (c : json) (post : list json) :
  Py.getindex (JList (seen ++ c :: post)) (Z.of_nat (List.length seen)) = Ok c.
Proof.
  unfold Py.getindex, Py.at_position, Py.position.
  rewrite length_app. cbn [List.length].
  replace (0 <=? Z.of_nat (List.length seen)) with true
    by (symmetry; apply Z.leb_le; lia).
  replace (Z.of_nat (List.length seen) <? Z.of_nat (List.length seen + S (List.length post)))
    with true by (symmetry; apply Z.ltb_lt; lia).
  cbn [andb]. rewrite Nat2Z.id.
  rewrite nth_error_app2 by lia. rewrite Nat.sub_diag. reflexivity.
Qed.

Lemma getindex_beyond (items : list json) :
  Py.getindex (JList items) (Z.of_nat (List.length items)) = Raise IndexError.
Proof.
  unfold Py.getindex, Py.at_position, Py.position.
  replace (Z.of_nat (List.length items) <? Z.of_nat (List.length items)) with false
    by (symmetry; apply Z.ltb_ge; lia).
  replace (Z.of_nat (List.length items) <? 0) with false
    by (symmetry; apply Z.ltb_ge; lia).
  rewrite andb_false_r. reflexivity.
Qed.

Lemma scan_step_without (body : json) (items seen : list json) (x : json)
    (post : list json) (n : nat) :
  Py.getitem body "items" = Ok (JList items) ->
  items = seen ++ x :: post ->
  without_id x ->
  scan_results E body (S n) (Z.of_nat (List.length seen)) =
  scan_results E body n (Z.of_nat (List.length (seen ++ [x]))).
Proof.
  intros Hitems -> [Hcand Hvid]. cbn [scan_results]. rewrite Hitems. cbn [rbind].
  rewrite getindex_middle. cbn [rbind].
  unfold video_id_of in Hvid. unfold candidate_id in *. unfold Py.getitem at 1.
  destruct x as [| | | | |d]; try congruence.
  destruct (Py.lookup "id" d) as [[| | | | |id]|]; try congruence.
  cbn [rbind Py.contains]. rewrite Hvid.
  rewrite length_app. cbn [List.length]. f_equal. lia.
Qed.



Lemma scan_exhausts (body : json) (items : list json) (pre : list json) :
  Py.getitem body "items" = Ok (JList items) ->
  forall (seen post : list json),
    items = seen ++ pre ++ post ->
    Forall without_id pre ->
    scan_results E body (List.length pre) (Z.of_nat (List.length seen)) = Ok None.
Proof.
  intros Hitems. induction pre as [|x pre IH]; intros seen post Heq Hpre.
  - reflexivity.
  - inversion Hpre as [|? ? Hx Hpre']; subst. cbn [List.length].
    rewrite (scan_step_without body _ seen x (pre ++ post) (List.length pre) Hitems eq_refl Hx).
    apply (IH (seen ++ [x]) post).
    + rewrite <- app_assoc. reflexivity.
    + exact Hpre'.
Qed.

Lemma get_from_youtube_run (lk : YoutubeLinker) (track name artist author : json)
    (h : list event) :
  is_none (youtube_key lk) = false ->
  Py.getitem track "name" = Ok name ->
  Py.getitem track "artist" = Ok artist ->
  Py.getitem artist "#text" = Ok author ->
  let req := EvSearch (search_query E name author) (youtube_key lk) 5 in
  _get_from_youtube E lk track h =
  (rbind (youtube_search E (h ++ [req]) (search_query E name author) (youtube_key lk) 5)
         (fun body => scan_results E body 5 0),
   [req]).
Proof.
  intros Hkey Hname Hartist Hauthor. cbv zeta. unfold _get_from_youtube.
  rewrite Hkey, bind_lift, Hname, bind_lift, Hartist, bind_lift, Hauthor.
  cbv zeta. fold (search_query E name author). rewrite bind_emit.
  set (h1 := h ++ _).
  rewrite (bind_silent _ _ h1
             (youtube_search E h1 (search_query E name author) (youtube_key lk) 5))
    by reflexivity.
  destruct (youtube_search E h1 _ _ _) as [body|e]; reflexivity.
Qed.


(** ** Failures *)



Lemma get_youtube_url_falls_through (lk : YoutubeLinker) (track url : json)
    (h : list event) :
  Py.getitem track "url" = Ok url ->
  lastfm_page E (h ++ [EvGetPage url]) url = Ok [] ->
  get_youtube_url E lk track h =
  (outcome (_get_from_youtube E lk track (h ++ [EvGetPage url])),
   EvGetPage url :: calls (_get_from_youtube E lk track (h ++ [EvGetPage url]))).
Proof.
  intros Hurl Hpage.
  pose proof (get_from_lastfm_run lk track url h Hurl) as Hrun. rewrite Hpage in Hrun.
  cbn [xpath_last] in Hrun. unfold get_youtube_url.
  rewrite (bind_calls_ok _ _ _ None) by (rewrite Hrun; reflexivity).
  rewrite Hrun. reflexivity.
Qed.



(** ** All the calls of a cycle *)

(** A cycle that cannot open its session makes no call.  Otherwise it
    opens the session, sends its request, makes the calls [es] of the
    loading, then either stops there (something raised) or prints its
    status, announces and starts its sleep, and in both cases closes the
    session last. *)
Lemma cycle_calls (L : Locals) (w : Z) (h : list event) :
  calls (cycle E L w h) = [] \/
  exists (es tail : list event),
    calls (cycle E L w h) =
      EvConnect (List.length h) (host L) (vlc_port L) :: request L w :: es ++ tail
        ++ [EvClose (List.length h)] /\
    Forall (fun ev => is_load ev = true) es /\
    (tail = [] \/ exists now w', tail = closing L now w').
Proof.
  rewrite cycle_run. destruct (telnet_open E h (host L) (vlc_port L)); [left; reflexivity|].
  right. cbn [calls snd]. rewrite cycle_body_run.
  pose proof (poll_run L w (session L h) (opened L h)) as Hpoll. cbv zeta in Hpoll.
  fold (request L w) in Hpoll. fold (polled L w h) in Hpoll.
  fold (fetched E L w h) in Hpoll. rewrite Hpoll.
  destruct (fetched E L w h) as [tracks|e].
  - set (run := load_tracks E tracks w (session L h) (linker L) true (polled L w h)).
    assert (Hes : Forall (fun ev => is_load ev = true) (calls run))
      by apply load_tracks_emits.
    destruct (outcome run) as [w'|e].
    + exists (calls run).
      pose proof (wait_run L w' (opened L h ++ request L w :: calls run)) as Hwait.
      cbv zeta in Hwait. rewrite Hwait. cbn [calls snd].
      eexists. split; [|split; [exact Hes|]].
      * cbn [app]. rewrite <- app_assoc. reflexivity.
      * right. eexists. eexists. reflexivity.
    + exists (calls run), []. split; [reflexivity|]. split; [exact Hes | left; reflexivity].
  - exists [], []. split; [reflexivity|]. split; [constructor | left; reflexivity].
Qed.

(** ** The cycle *)


Lemma cycle_monotone (L : Locals) :
  (forall (w : Z) (h : list event) (tracks : list json),
      fetched E L w h = Ok (JList tracks) ->
      Forall (fun tr => exists ts, played_at E tr = Ok ts /\ w <= ts) tracks) ->
  forall (w : Z) (h : list event) (w' : Z),
    outcome (cycle E L w h) = Ok w' -> w <= w'.
Proof.
  intros Hsource w h w' Hrun.
  apply cycle_value in Hrun. destruct Hrun as [tracks [Hfetch Hload]].
  apply load_tracks_value in Hload.
  destruct Hload as [-> | [t [rest [ts [-> [Hts ->]]]]]]; [lia|].
  specialize (Hsource w h (t :: rest) Hfetch).
  inversion Hsource as [|? ? [ts' [Hts' Hle]] _]; subst.
  assert (ts' = ts) by congruence. lia.
Qed.

(** C7: when every event of a fetched batch was played at or after the
    watermark the fetch was issued with, the watermark after a cycle is at
    least the watermark before it, and so after any number of cycles. *)
Theorem watermark_never_decreases (L : Locals) :
  (forall (w : Z) (h : list event) (tracks : list json),
      fetched E L w h = Ok (JList tracks) ->
      Forall (fun tr => exists ts, played_at E tr = Ok ts /\ w <= ts) tracks) ->
  (forall (w : Z) (h : list event) (w' : Z),
      outcome (cycle E L w h) = Ok w' -> w <= w') /\
  (forall (n : nat) (w : Z) (h : list event) (w' : Z),
      outcome (main_loop E L n w h) = Ok w' -> w <= w').
Proof.
  intros Hsource.
  pose proof (cycle_monotone L Hsource) as Hcycle.
  split; [exact Hcycle|].
  induction n as [|n IH]; intros w h w' Hrun.
  - unfold outcome, main_loop, ret in Hrun. cbn [fst] in Hrun. injection Hrun as <-. lia.
  - cbn [main_loop] in Hrun. apply bind_outcome_ok in Hrun.
    destruct Hrun as [w1 [H1 H2]]. apply Hcycle in H1. apply IH in H2. lia.
Qed.


Lemma is_load_not_sleep (es : list event) :
  Forall (fun ev => is_load ev = true) es -> Forall (fun ev => is_sleep ev = false) es.
Proof.
  intros H. eapply Forall_impl; [|exact H]. intros [] Hev; simpl in *; congruence.
Qed.


(** ** The session *)

Lemma held_from_app (open : list nat) (a b : list event) :
  held_from open (a ++ b) = held_from (held_from open a) b.
Proof.
  revert open. induction a as [|ev a IH]; intros open; [reflexivity|].
  destruct ev; cbn [app held_from]; apply IH.
Qed.

Lemma held_from_body (open : list nat) (es : list event) :
  Forall (fun ev => is_body ev = true) es -> held_from open es = open.
Proof.
  induction 1 as [|ev es Hev _ IH]; [reflexivity|].
  destruct ev; try discriminate; exact IH.
Qed.

Lemma is_load_body (es : list event) :
  Forall (fun ev => is_load ev = true) es -> Forall (fun ev => is_body ev = true) es.
Proof.
  intros H. eapply Forall_impl; [|exact H]. intros [] Hev; simpl in *; congruence.
Qed.

Lemma sleep_position (l1 l2 pre post : list event) (x y : event) :
  Forall (fun ev => is_sleep ev = false) l1 ->
  Forall (fun ev => is_sleep ev = false) l2 ->
  is_sleep x = true ->
  is_sleep y = true ->
  l1 ++ x :: l2 = pre ++ y :: post ->
  pre = l1 /\ post = l2.
Proof.
  intros H1 H2 Hx Hy. revert pre.
  induction H1 as [|a l1 Ha H1 IH]; intros pre Heq.
  - destruct pre as [|p pre]; cbn [app] in Heq.
    + injection Heq as _ <-. split; reflexivity.
    + injection Heq as _ ->. rewrite Forall_forall in H2.
      specialize (H2 y (in_elt y pre post)). congruence.
  - destruct pre as [|p pre]; cbn [app] in Heq.
    + injection Heq as -> _. congruence.
    + injection Heq as <- Heq. destruct (IH pre Heq) as [-> ->]. split; reflexivity.
Qed.

(** C9, as the code has it: the session opened at the start of a cycle is
    closed by the end of the cycle however the cycle ends, so that none
    is left open after it; the sleep is part of the cycle, and when the
    cycle sleeps the session is still open and is closed right after the
    sleep. *)
Theorem session_released_with_the_cycle (L : Locals) (w : Z) (h : list event) :
  held (calls (cycle E L w h)) = [] /\
  (forall (pre : list event) (d : Z) (post : list event),
      calls (cycle E L w h) = pre ++ EvSleep d :: post ->
      held pre = [List.length h] /\ post = [EvClose (List.length h)]).
Proof.
  destruct (cycle_calls L w h) as [Hnone | [es [tail [Hcalls [Hes Htail]]]]].
  - rewrite Hnone. split; [reflexivity|].
    intros pre d post Heq. destruct pre; discriminate.
  - rewrite Hcalls.
    assert (Hbody : Forall (fun ev => is_body ev = true) (request L w :: es ++ tail)).
    { constructor; [reflexivity|]. apply Forall_app. split; [apply is_load_body; exact Hes|].
      destruct Htail as [-> | [now [w' ->]]]; repeat constructor. }
    set (c := List.length h) in *.
    split.
    + unfold held. cbn [held_from app].
      inversion Hbody as [|? ? _ Hbody']; subst.
      rewrite app_assoc, held_from_app, (held_from_body [c]) by exact Hbody'.
      cbn [held_from filter]. rewrite Nat.eqb_refl. reflexivity.
    + intros pre d post Heq.
      destruct Htail as [-> | [now [w' ->]]].
      * exfalso. cbn [app] in Heq.
        assert (Hin : In (EvSleep d)
                        (EvConnect c (host L) (vlc_port L) :: request L w :: es ++ [EvClose c])).
        { rewrite Heq. apply in_elt. }
        destruct Hin as [Hin | [Hin | Hin]]; try discriminate.
        apply in_app_or in Hin. destruct Hin as [Hin | [Hin | []]]; try discriminate.
        apply is_load_not_sleep in Hes. rewrite Forall_forall in Hes.
        specialize (Hes _ Hin). discriminate.
      * unfold closing in Heq, Hbody.
        set (st := EvStatus now w') in *.
        set (nu := EvNextUpdate _ _) in *.
        assert (Heq' : (EvConnect c (host L) (vlc_port L) :: request L w :: es ++ [st; nu])
                         ++ EvSleep (sleep_seconds L now w') :: [EvClose c]
                       = pre ++ EvSleep d :: post).
        { rewrite <- Heq. cbn [app]. rewrite <- app_assoc. reflexivity. }
        apply sleep_position in Heq'; try reflexivity.
        -- destruct Heq' as [-> ->]. split; [|reflexivity].
           unfold held. cbn [held_from app].
           apply held_from_body.
           apply Forall_app. split; [apply is_load_body; exact Hes | repeat constructor].
        -- constructor; [reflexivity|]. constructor; [reflexivity|].
           apply Forall_app. split; [apply is_load_not_sleep; exact Hes | repeat constructor].
        -- repeat constructor.
Qed.

(** ** What later fetches ask for *)

Lemma fetches_app (a b : list event) : fetches (a ++ b) = fetches a ++ fetches b.
Proof. apply flat_map_app. Qed.

Lemma fetches_load (es : list event) :
  Forall (fun ev => is_load ev = true) es -> fetches es = [].
Proof.
  induction 1 as [|ev es Hev _ IH]; [reflexivity|].
  destruct ev; try discriminate; exact IH.
Qed.

(** The only fetch of a cycle asks for the tracks from its watermark. *)
Lemma cycle_fetches (L : Locals) (w : Z) (h : list event) :
  fetches (calls (cycle E L w h)) = [] \/ fetches (calls (cycle E L w h)) = [w].
Proof.
  destruct (cycle_calls L w h) as [-> | [es [tail [-> [Hes Htail]]]]]; [left; reflexivity|].
  right. cbn [fetches flat_map request app].
  fold (fetches (es ++ tail ++ [EvClose (List.length h)])).
  rewrite !fetches_app, (fetches_load es Hes).
  destruct Htail as [-> | [now [w' ->]]]; reflexivity.
Qed.

Lemma main_loop_fetches (L : Locals) :
  (forall (w : Z) (h : list event) (tracks : list json),
      fetched E L w h = Ok (JList tracks) ->
      Forall (fun tr => exists ts, played_at E tr = Ok ts /\ w <= ts) tracks) ->
  forall (n : nat) (w : Z) (h : list event),
    Forall (fun from_ts => w <= from_ts) (fetches (calls (main_loop E L n w h))).
Proof.
  intros Hsource. induction n as [|n IH]; intros w h; [constructor|].
  cbn [main_loop].
  assert (Hfirst : Forall (fun from_ts => w <= from_ts) (fetches (calls (cycle E L w h)))).
  { destruct (cycle_fetches L w h) as [-> | ->]; repeat constructor. lia. }
  destruct (outcome (cycle E L w h)) as [w1|e] eqn:Hrun.
  - rewrite (bind_calls_ok _ _ _ w1 Hrun). cbn [calls snd].
    rewrite fetches_app. apply Forall_app. split; [exact Hfirst|].
    pose proof (cycle_monotone L Hsource w h w1 Hrun) as Hle.
    eapply Forall_impl; [|apply IH]. intros f Hf. cbv beta in Hf. lia.
  - rewrite (bind_raises _ _ _ e Hrun). exact Hfirst.
Qed.



End Facts.

(** * The properties at work in the sample world *)

Lemma sample_played_at :
  Forall2 (fun tr x => played_at Sample.world tr = Ok x)
          [Sample.track_B; Sample.track_A] [200; 100].
Proof. repeat constructor. Qed.

Lemma sample_newest_first : Sorted Z.ge [200; 100].
Proof. repeat constructor; lia. Qed.

Lemma sample_resolves (tr : json) (h : list event) :
  In tr [Sample.track_B; Sample.track_A] ->
  outcome (get_youtube_url Sample.world (linker Sample.locals) tr h)
  = Ok (Some (Sample.resolved tr)).
Proof. intros [<- | [<- | []]]; reflexivity. Qed.

Lemma sample_loads (tr : json) (h : list event) :
  In tr [Sample.track_B; Sample.track_A] ->
  outcome (load_track Sample.world Sample.vlc (linker Sample.locals) true tr h) = Ok tt.
Proof. intros [<- | [<- | []]]; reflexivity. Qed.

Lemma watermark_is_newest_plus_one_witness :
  outcome (load_tracks Sample.world (JList [Sample.track_B; Sample.track_A]) 0
             Sample.vlc (linker Sample.locals) true []) = Ok (fold_right Z.max 200 [100] + 1).
Proof.
  apply (watermark_is_newest_plus_one Sample.world Sample.track_B [Sample.track_A]
           200 [100] 0 Sample.vlc (linker Sample.locals) true []
           sample_played_at sample_newest_first).
  exact sample_loads.
Defined.

Lemma sample_names (tr : json) :
  In tr [Sample.track_B; Sample.track_A] -> exists n, Py.getitem tr "name" = Ok n.
Proof. intros [<- | [<- | []]]; eexists; reflexivity. Qed.

Lemma sample_ascii (tr : json) :
  In tr [Sample.track_B; Sample.track_A] -> Py.all_ascii (Sample.resolved tr) = true.
Proof. intros [<- | [<- | []]]; reflexivity. Qed.

(** The scenario of C2: the batch [B at 200; A at 100], both resolved. *)
Lemma enqueue_order_is_chronological_witness :
  outcome (load_tracks Sample.world (JList [Sample.track_B; Sample.track_A]) 0
             Sample.vlc (linker Sample.locals) true []) = Ok 201 /\
  writes (calls (load_tracks Sample.world (JList [Sample.track_B; Sample.track_A]) 0
                   Sample.vlc (linker Sample.locals) true [])) =
    [(0%nat, enqueue_message Sample.url_A); (0%nat, enqueue_message Sample.url_B)].
Proof.
  pose proof (enqueue_order_is_chronological Sample.world Sample.track_B [Sample.track_A]
                200 [100] 0 Sample.vlc 0%nat (linker Sample.locals) true Sample.resolved []
                sample_played_at sample_newest_first eq_refl sample_resolves) as H.
  cbv zeta in H. destruct H as (_ & _ & _ & _ & H).
  apply H.
  - exact sample_ascii.
  - reflexivity.
  - intros _. exact sample_names.
Defined.

Lemma embedded_link_short_circuits_witness :
  get_youtube_url Sample.world (linker Sample.locals) Sample.track_A [] =
    (Ok (Some Sample.url_A), [EvGetPage (JStr "https://www.last.fm/music/Ann/_/A")]).
Proof.
  apply (embedded_link_short_circuits Sample.world (linker Sample.locals) Sample.track_A
           (JStr "https://www.last.fm/music/Ann/_/A")
           ["https://www.youtube.com/watch?v=zzzzzzzzzzz"%string; Sample.url_A] []).
  - reflexivity.
  - reflexivity.
  - discriminate.
Defined.

Lemma sample_channels_without_id (n : nat) :
  Forall without_id (repeat (Sample.channel "UCcccc") n).
Proof.
  induction n as [|n IH]; [constructor|].
  constructor; [|exact IH]. split; [discriminate | reflexivity].
Qed.



(** A search that answers with fewer than five candidates, none of them a
    video: the scan indexes past the end of the list. *)
Lemma short_search_response_raises :
  outcome (_get_from_youtube (Sample.world_channels 2) (linker Sample.locals)
             Sample.track_C []) = Raise IndexError.
Proof. vm_compute. reflexivity. Qed.




Lemma in_firstn {A : Type} (n : nat) (l : list A) (x : A) : In x (firstn n l) -> In x l.
Proof.
  intros H. rewrite <- (firstn_skipn n l). apply in_or_app. left. exact H.
Qed.

Lemma sample_source (w : Z) (h : list event) (tracks : list json) :
  fetched Sample.world Sample.locals w h = Ok (JList tracks) ->
  Forall (fun tr => exists ts, played_at Sample.world tr = Ok ts /\ w <= ts) tracks.
Proof.
  intros Hf.
  assert (Htracks : tracks = firstn (Z.to_nat 25)
            (filter (Sample.newer_than Sample.digits_only w) Sample.scrobbles)).
  { assert (Hfx : fetched Sample.world Sample.locals w h =
                   Ok (JList (firstn (Z.to_nat 25)
                     (filter (Sample.newer_than Sample.digits_only w) Sample.scrobbles))))
      by reflexivity.
    rewrite Hfx in Hf. injection Hf as <-. reflexivity. }
  subst tracks. apply Forall_forall. intros tr Hin.
  apply in_firstn in Hin. apply filter_In in Hin. destruct Hin as [Hin Hnew].
  destruct Hin as [<- | [<- | [<- | []]]].
  - exists 300. split; [reflexivity|]. apply Z.leb_le. exact Hnew.
  - exists 200. split; [reflexivity|]. apply Z.leb_le. exact Hnew.
  - exists 100. split; [reflexivity|]. apply Z.leb_le. exact Hnew.
Qed.

Lemma watermark_never_decreases_witness :
  outcome (main_loop Sample.world Sample.locals 2 0 []) = Ok 301 /\ 0 <= 301.
Proof.
  split; [reflexivity|].
  apply (proj2 (watermark_never_decreases Sample.world Sample.locals sample_source)
           2%nat 0 [] 301).
  reflexivity.
Defined.


(** C9, as stated, fails: in the cycle that starts with the watermark 301
    the session 0 is still open when the sleep starts, and is closed only
    after it. *)
Lemma session_is_open_during_sleep :
  calls (cycle Sample.world Sample.locals 301 []) =
    [EvConnect 0 (JStr "127.0.0.1") (JNum 4212);
     EvRecentTracks "someone" (JStr "lfm") 301 25;
     EvStatus 1000%Q 301;
     EvNextUpdate true 60]
    ++ EvSleep 60 :: [EvClose 0] /\
  held [EvConnect 0 (JStr "127.0.0.1") (JNum 4212);
        EvRecentTracks "someone" (JStr "lfm") 301 25;
        EvStatus 1000%Q 301;
        EvNextUpdate true 60] = [0%nat].
Proof. split; vm_compute; reflexivity. Qed.

Lemma session_released_with_the_cycle_witness :
  held (calls (cycle Sample.world Sample.locals 301 [])) = [] /\
  held [EvConnect 0 (JStr "127.0.0.1") (JNum 4212);
        EvRecentTracks "someone" (JStr "lfm") 301 25;
        EvStatus 1000%Q 301;
        EvNextUpdate true 60] = [0%nat].
Proof.
  split.
  - apply (proj1 (session_released_with_the_cycle Sample.world Sample.locals 301 [])).
  - apply (proj2 (session_released_with_the_cycle Sample.world Sample.locals 301 [])
             [EvConnect 0 (JStr "127.0.0.1") (JNum 4212);
              EvRecentTracks "someone" (JStr "lfm") 301 25;
              EvStatus 1000%Q 301;
              EvNextUpdate true 60]
             60 [EvClose 0]).
    reflexivity.
Defined.



(** * Further properties of the code *)

Section Further.

Variable E : Env.

(** ** Calls that always satisfy a property *)

Lemma always_silent {A : Type} (P : event -> Prop) (m : M A) :
  (forall h, calls (m h) = []) -> always P m.
Proof. intros Hm h. rewrite Hm. constructor. Qed.

Lemma always_emit (P : event -> Prop) (ev : event) : P ev -> always P (emit ev).
Proof. intros HP h. constructor; [exact HP | constructor]. Qed.

Lemma always_bind {A B : Type} (P : event -> Prop) (m : M A) (f : A -> M B) :
  always P m -> (forall a, always P (f a)) -> always P (bind m f).
Proof.
  intros Hm Hf h. specialize (Hm h). unfold bind, calls in *.
  destruct (m h) as [[a|e] es]; cbn [snd] in *; [|exact Hm].
  specialize (Hf a (h ++ es)). unfold calls in Hf.
  destruct (f a (h ++ es)) as [r es']. cbn [snd] in *.
  apply Forall_app. split; assumption.
Qed.

Lemma always_for_each {A : Type} (P : event -> Prop) (f : A -> M unit) (l : list A) :
  (forall x, always P (f x)) -> always P (for_each f l).
Proof.
  intros Hf. induction l as [|x l IH]; cbn [for_each].
  - apply always_silent. reflexivity.
  - apply always_bind; [apply Hf | intros _; exact IH].
Qed.

Lemma always_of_emits {A : Type} (P : event -> bool) (Q : event -> Prop) (m : M A) :
  (forall ev, P ev = true -> Q ev) -> emits P m -> always Q m.
Proof.
  intros HPQ Hm h. specialize (Hm h). eapply Forall_impl; [|exact Hm]. exact HPQ.
Qed.

(** ** The session object *)

(** X1: a [with VLCrc(...)] block around any body: when the connection
    cannot be opened the body does not run and nothing is called;
    otherwise the calls are the opening, the calls of the body and the
    closing, and the outcome, value or exception, is the body's. *)
Theorem with_block_passes_outcome_and_closes {A : Type} (host port : json)
    (body : VLCrc -> M A) (h : list event) :
  let c := List.length h in
  let self := {| server := host; port := port; telnet := Some c |} in
  (forall e, telnet_open E h host port = Some e ->
             with_VLCrc E host port body h = (Raise e, [])) /\
  (telnet_open E h host port = None ->
   with_VLCrc E host port body h =
     (outcome (body self (h ++ [EvConnect c host port])),
      EvConnect c host port :: calls (body self (h ++ [EvConnect c host port]))
        ++ [EvClose c])).
Proof.
  cbv zeta. split.
  - intros e Hopen. unfold with_VLCrc, bind, VLCrc_init. rewrite Hopen. reflexivity.
  - intros Hopen. unfold with_VLCrc, bind at 1, VLCrc_init. rewrite Hopen.
    unfold finally, outcome, calls.
    destruct (body _ (h ++ [EvConnect (List.length h) host port])) as [r es].
    cbn [fst snd]. unfold VLCrc_exit. cbn [telnet].
    rewrite bind_calls_ok with (a := {| server := host; port := port; telnet := None |}).
    2:{ rewrite bind_emit. reflexivity. }
    rewrite bind_emit. cbn [outcome calls fst snd ret app]. reflexivity.
Qed.

(** X2: once [__exit__] has run, the object is unusable: [__exit__]
    closes the session and leaves [telnet] at [None]; after it [enqueue]
    and a second [__exit__] raise AttributeError without any call. *)
Theorem session_is_unusable_after_exit (self : VLCrc) (c : nat) (h : list event) :
  telnet self = Some c ->
  exists self',
    VLCrc_exit self h = (Ok self', [EvClose c]) /\
    telnet self' = None /\
    (forall url h', enqueue E self' url h' = (Raise AttributeError, [])) /\
    (forall h', VLCrc_exit self' h' = (Raise AttributeError, [])).
Proof.
  intros Htel. exists {| server := server self; port := port self; telnet := None |}.
  split; [|split; [reflexivity | split; intros; reflexivity]].
  unfold VLCrc_exit. rewrite Htel, bind_emit. reflexivity.
Qed.

Lemma enqueue_calls (self : VLCrc) (c : nat) (url : string) (h : list event) :
  telnet self = Some c ->
  calls (enqueue E self url h) = [] \/
  (calls (enqueue E self url h) = [EvWrite c (enqueue_message url)] /\
   Py.all_ascii (enqueue_message url) = true).
Proof.
  intros Htel. unfold enqueue. rewrite Htel. fold (enqueue_message url).
  rewrite bind_lift. unfold Py.encode_ascii.
  destruct (Py.all_ascii (enqueue_message url)) eqn:Hascii; [|left; reflexivity].
  right. rewrite bind_emit. cbn [calls snd].
  destruct (telnet_write E _ c (enqueue_message url)); split; reflexivity.
Qed.

(** X3: a url with a character outside ASCII is never written: [enqueue]
    raises UnicodeEncodeError before the write, and the turn of the loop
    for a track that resolves to such a url raises it with no more calls
    than those of the resolution. *)
Theorem non_ascii_url_is_not_written (vlcrc : VLCrc) (c : nat) (lk : YoutubeLinker)
    (verbose : bool) (track : json) (url : string) (h : list event) :
  telnet vlcrc = Some c ->
  Py.all_ascii url = false ->
  (forall h', enqueue E vlcrc url h' = (Raise UnicodeEncodeError, [])) /\
  (outcome (get_youtube_url E lk track h) = Ok (Some url) ->
   load_track E vlcrc lk verbose track h =
     (Raise UnicodeEncodeError, calls (get_youtube_url E lk track h))).
Proof.
  intros Htel Hascii.
  assert (Henq : forall h', enqueue E vlcrc url h' = (Raise UnicodeEncodeError, [])).
  { intros h'. unfold enqueue. rewrite Htel. fold (enqueue_message url).
    rewrite bind_lift. unfold Py.encode_ascii.
    rewrite enqueue_message_ascii, Hascii. reflexivity. }
  split; [exact Henq|].
  intros Hr. unfold load_track. rewrite (bind_calls_ok _ _ _ (Some url) Hr).
  cbn [outcome calls fst snd].
  rewrite (bind_raises _ _ _ UnicodeEncodeError) by (rewrite Henq; reflexivity).
  rewrite Henq. cbn [calls snd fst]. rewrite app_nil_r. reflexivity.
Qed.

(** ** What is written to the player *)

Lemma load_track_lines (vlcrc : VLCrc) (c : nat) (lk : YoutubeLinker) (verbose : bool)
    (track : json) :
  telnet vlcrc = Some c -> always (enqueue_line c) (load_track E vlcrc lk verbose track).
Proof.
  intros Htel. unfold load_track. apply always_bind.
  - apply always_of_emits with (P := is_lookup); [|apply get_youtube_url_emits].
    intros [] Hev; try discriminate; exact I.
  - intros [u|]; [|apply always_silent; reflexivity].
    apply always_bind.
    + intros h. destruct (enqueue_calls vlcrc c u h Htel) as [-> | [-> Hascii]].
      * constructor.
      * constructor; [|constructor]. split; [reflexivity|].
        split; [exact Hascii | exists u; reflexivity].
    + intros _. destruct verbose; [|apply always_silent; reflexivity].
      apply always_bind; [apply always_silent; reflexivity|].
      intros n. apply always_emit. exact I.
Qed.

Lemma load_tracks_lines (tracks : json) (w : Z) (vlcrc : VLCrc) (c : nat)
    (lk : YoutubeLinker) (verbose : bool) :
  telnet vlcrc = Some c -> always (enqueue_line c) (load_tracks E tracks w vlcrc lk verbose).
Proof.
  intros Htel. unfold load_tracks.
  apply always_bind; [apply always_silent; reflexivity|]. intros n.
  destruct (n =? 0); [apply always_silent; reflexivity|].
  repeat (apply always_bind; [apply always_silent; reflexivity|intros ?]).
  apply always_bind; [|intros ?; apply always_silent; reflexivity].
  apply always_for_each. intros x. apply load_track_lines. exact Htel.
Qed.

(** The calls of a cycle all satisfy a property that holds of the opening,
    the request, the closing calls and the calls of the loading. *)
Lemma cycle_calls_all (P : event -> Prop) (L : Locals) (w : Z) (h : list event) :
  (forall tracks, always P (load_tracks E tracks w (session L h) (linker L) true)) ->
  P (EvConnect (List.length h) (host L) (vlc_port L)) ->
  P (request L w) ->
  (forall now w', Forall P (closing L now w')) ->
  P (EvClose (List.length h)) ->
  Forall P (calls (cycle E L w h)).
Proof.
  intros Hload Hopen Hreq Hclosing Hclose.
  rewrite cycle_run. destruct (telnet_open E h (host L) (vlc_port L)); [constructor|].
  cbn [calls snd]. constructor; [exact Hopen|].
  apply Forall_app. split; [|constructor; [exact Hclose | constructor]].
  rewrite cycle_body_run.
  pose proof (poll_run E L w (session L h) (opened L h)) as Hpoll. cbv zeta in Hpoll.
  fold (request L w) in Hpoll. fold (polled L w h) in Hpoll.
  fold (fetched E L w h) in Hpoll. rewrite Hpoll.
  destruct (fetched E L w h) as [tracks|e]; [|constructor; [exact Hreq | constructor]].
  pose proof (Hload tracks (polled L w h)) as Hes.
  set (run := load_tracks E tracks w (session L h) (linker L) true (polled L w h)) in *.
  destruct (outcome run) as [w'|e].
  - pose proof (wait_run E L w' (opened L h ++ request L w :: calls run)) as Hwait.
    cbv zeta in Hwait. rewrite Hwait. cbn [calls snd].
    apply Forall_app. split; [constructor; assumption | apply Hclosing].
  - constructor; assumption.
Qed.

(** X4: whatever a cycle writes to the player is an ASCII line
    [enqueue url] ended by a newline, sent to the session this cycle
    opened. *)
Theorem cycle_writes_enqueue_lines_to_its_session (L : Locals) (w : Z) (h : list event)
    (c : nat) (m : string) :
  In (EvWrite c m) (calls (cycle E L w h)) ->
  c = List.length h /\ Py.all_ascii m = true /\ exists url, m = enqueue_message url.
Proof.
  intros Hin.
  assert (Hall : Forall (enqueue_line (List.length h)) (calls (cycle E L w h))).
  { apply cycle_calls_all.
    - intros tracks. apply load_tracks_lines. reflexivity.
    - exact I.
    - exact I.
    - intros now w'. repeat constructor.
    - exact I. }
  rewrite Forall_forall in Hall. exact (Hall _ Hin).
Qed.

Lemma load_track_one_write (vlcrc : VLCrc) (lk : YoutubeLinker) (verbose : bool)
    (track : json) (h : list event) :
  (List.length (writes (calls (load_track E vlcrc lk verbose track h))) <= 1)%nat.
Proof.
  unfold load_track.
  pose proof (writes_lookup _ (get_youtube_url_emits E lk track h)) as Hlook.
  destruct (outcome (get_youtube_url E lk track h)) as [[u|]|e] eqn:Hr.
  - rewrite (bind_calls_ok _ _ _ (Some u) Hr). cbn [calls snd].
    rewrite writes_app, Hlook. cbn [app].
    set (h1 := h ++ calls (get_youtube_url E lk track h)).
    destruct (telnet vlcrc) as [c|] eqn:Htel.
    + destruct (enqueue_cases E vlcrc c u h1 Htel) as [Henq | [[e Henq] | [e Henq]]].
      * rewrite (bind_calls_ok _ _ _ tt) by (rewrite Henq; reflexivity).
        rewrite Henq. cbn [calls snd].
        destruct verbose.
        -- rewrite bind_lift. destruct (Py.getitem track "name"); cbn; lia.
        -- cbn. lia.
      * rewrite (bind_raises _ _ _ e) by (rewrite Henq; reflexivity).
        rewrite Henq. cbn. lia.
      * rewrite (bind_raises _ _ _ e) by (rewrite Henq; reflexivity).
        rewrite Henq. cbn. lia.
    + unfold enqueue. rewrite Htel. cbn. lia.
  - rewrite (bind_calls_ok _ _ _ None Hr). cbn [calls snd ret].
    rewrite app_nil_r, Hlook. cbn. lia.
  - rewrite (bind_raises _ _ _ e Hr). cbn [calls snd]. rewrite Hlook. cbn. lia.
Qed.

Lemma for_each_writes_bound (vlcrc : VLCrc) (lk : YoutubeLinker) (verbose : bool)
    (l : list json) (h : list event) :
  (List.length (writes (calls (for_each (load_track E vlcrc lk verbose) l h)))
   <= List.length l)%nat.
Proof.
  revert h. induction l as [|tr l IH]; intros h; [cbn; lia|].
  cbn [for_each List.length].
  pose proof (load_track_one_write vlcrc lk verbose tr h) as Hone.
  destruct (outcome (load_track E vlcrc lk verbose tr h)) as [[]|e] eqn:Ho.
  - rewrite (bind_calls_ok _ _ _ tt Ho). cbn [calls snd].
    rewrite writes_app, length_app.
    specialize (IH (h ++ calls (load_track E vlcrc lk verbose tr h))). lia.
  - rewrite (bind_raises _ _ _ e Ho). cbn [calls snd]. lia.
Qed.

(** X5: loading a batch writes at most one line per event of the batch,
    whatever the resolutions and the player do. *)
Theorem at_most_one_write_per_track (tracks : list json) (w : Z) (vlcrc : VLCrc)
    (lk : YoutubeLinker) (verbose : bool) (h : list event) :
  (List.length (writes (calls (load_tracks E (JList tracks) w vlcrc lk verbose h)))
   <= List.length tracks)%nat.
Proof.
  destruct tracks as [|t rest]; [cbn; lia|].
  rewrite load_tracks_batch. destruct (played_at E t) as [ts|e]; [|cbn; lia].
  pose proof (for_each_writes_bound vlcrc lk verbose (rev (t :: rest)) h) as Hb.
  rewrite length_rev in Hb.
  unfold bind, calls in *.
  destruct (for_each _ _ h) as [[[]|e] es]; cbn [snd ret] in *.
  - rewrite app_nil_r. exact Hb.
  - exact Hb.
Qed.

(** ** The calls and the values of a resolution *)

Lemma get_from_youtube_calls (lk : YoutubeLinker) (track : json) (h : list event) :
  calls (_get_from_youtube E lk track h) = [] \/
  exists q, calls (_get_from_youtube E lk track h) = [EvSearch q (youtube_key lk) 5].
Proof.
  unfold _get_from_youtube. destruct (is_none (youtube_key lk)); [left; reflexivity|].
  rewrite bind_lift. destruct (Py.getitem track "name") as [name|e]; [|left; reflexivity].
  rewrite bind_lift. destruct (Py.getitem track "artist") as [artist|e]; [|left; reflexivity].
  rewrite bind_lift. destruct (Py.getitem artist "#text") as [author|e]; [|left; reflexivity].
  right. exists (search_query E name author). cbv zeta. fold (search_query E name author).
  rewrite bind_emit. cbn [calls snd]. set (h1 := h ++ _).
  rewrite (bind_silent _ _ h1
             (youtube_search E h1 (search_query E name author) (youtube_key lk) 5))
    by reflexivity.
  destruct (youtube_search E h1 _ _ _); reflexivity.
Qed.

(** X6: a resolution makes no call (the track has no url), or fetches the
    page of the track and nothing else, or fetches the page and then
    sends one search asking for 5 results: never more than two calls,
    and never a search before the page. *)
Theorem resolution_makes_at_most_two_calls (lk : YoutubeLinker) (track : json)
    (h : list event) :
  calls (get_youtube_url E lk track h) = [] \/
  exists url,
    Py.getitem track "url" = Ok url /\
    (calls (get_youtube_url E lk track h) = [EvGetPage url] \/
     exists q, calls (get_youtube_url E lk track h) =
                 [EvGetPage url; EvSearch q (youtube_key lk) 5]).
Proof.
  destruct (Py.getitem track "url") as [url|e] eqn:Hurl.
  - right. exists url. split; [reflexivity|].
    pose proof (get_from_lastfm_run E lk track url h Hurl) as Hrun.
    unfold get_youtube_url.
    destruct (lastfm_page E (h ++ [EvGetPage url]) url) as [values|e].
    + destruct (xpath_last values) as [|link rest].
      * rewrite (bind_calls_ok _ _ _ None) by (rewrite Hrun; reflexivity).
        rewrite Hrun. cbn [calls snd].
        destruct (get_from_youtube_calls lk track (h ++ [EvGetPage url])) as [-> | [q ->]].
        -- left. reflexivity.
        -- right. exists q. reflexivity.
      * rewrite (bind_calls_ok _ _ _ (Some link)) by (rewrite Hrun; reflexivity).
        rewrite Hrun. left. reflexivity.
    + rewrite (bind_raises _ _ _ e) by (rewrite Hrun; reflexivity).
      rewrite Hrun. left. reflexivity.
  - left. unfold get_youtube_url, _get_from_lastfm.
    rewrite (bind_raises _ _ _ e) by (rewrite bind_lift, Hurl; reflexivity).
    rewrite bind_lift, Hurl. reflexivity.
Qed.



Lemma scan_runs_out (body : json) (items : list json) (pre : list json) :
  Py.getitem body "items" = Ok (JList items) ->
  forall (seen : list json) (n : nat),
    items = seen ++ pre ->
    Forall without_id pre ->
    (List.length pre < n)%nat ->
    scan_results E body n (Z.of_nat (List.length seen)) = Raise IndexError.
Proof.
  intros Hitems. induction pre as [|x pre IH]; intros seen n Heq Hpre Hn.
  - destruct n as [|n]; [inversion Hn|].
    cbn [scan_results]. rewrite Hitems. cbn [rbind].
    rewrite app_nil_r in Heq. subst items. rewrite getindex_beyond. reflexivity.
  - destruct n as [|n]; [inversion Hn|].
    inversion Hpre as [|? ? Hx Hpre']; subst.
    rewrite (scan_step_without E body _ seen x pre n Hitems eq_refl Hx).
    apply (IH (seen ++ [x]) n).
    + rewrite <- app_assoc. reflexivity.
    + exact Hpre'.
    + cbn [List.length] in Hn. lia.
Qed.

(** X8: when the search answers with fewer than 5 candidates and none of
    them carries a video identifier, the scan reads past the end of the
    list: the resolution raises IndexError, after its one search. *)
Theorem short_search_response_is_an_index_error (lk : YoutubeLinker)
    (track name artist author body : json) (items : list json) (h : list event) :
  is_none (youtube_key lk) = false ->
  Py.getitem track "name" = Ok name ->
  Py.getitem track "artist" = Ok artist ->
  Py.getitem artist "#text" = Ok author ->
  let req := EvSearch (search_query E name author) (youtube_key lk) 5 in
  youtube_search E (h ++ [req]) (search_query E name author) (youtube_key lk) 5 = Ok body ->
  Py.getitem body "items" = Ok (JList items) ->
  (List.length items < 5)%nat ->
  Forall without_id items ->
  _get_from_youtube E lk track h = (Raise IndexError, [req]).
Proof.
  intros Hkey Hname Hartist Hauthor req Hsearch Hitems Hlen Hnone.
  pose proof (get_from_youtube_run E lk track name artist author h
                Hkey Hname Hartist Hauthor) as Hrun.
  cbv zeta in Hrun. fold req in Hrun. rewrite Hsearch in Hrun. cbn [rbind] in Hrun.
  rewrite Hrun. f_equal.
  apply (scan_runs_out body items items Hitems [] 5%nat eq_refl Hnone Hlen).
Qed.

(** X9: the scan stops after 5 candidates: when the first 5 carry no
    video identifier the resolution gives absent whatever follows them in
    the response, even a candidate that carries one. *)
Theorem candidates_after_the_fifth_are_ignored (lk : YoutubeLinker)
    (track name artist author body : json) (first more : list json) (h : list event) :
  is_none (youtube_key lk) = false ->
  Py.getitem track "name" = Ok name ->
  Py.getitem track "artist" = Ok artist ->
  Py.getitem artist "#text" = Ok author ->
  let req := EvSearch (search_query E name author) (youtube_key lk) 5 in
  youtube_search E (h ++ [req]) (search_query E name author) (youtube_key lk) 5 = Ok body ->
  Py.getitem body "items" = Ok (JList (first ++ more)) ->
  List.length first = 5%nat ->
  Forall without_id first ->
  _get_from_youtube E lk track h = (Ok None, [req]).
Proof.
  intros Hkey Hname Hartist Hauthor req Hsearch Hitems Hlen Hnone.
  pose proof (get_from_youtube_run E lk track name artist author h
                Hkey Hname Hartist Hauthor) as Hrun.
  cbv zeta in Hrun. fold req in Hrun. rewrite Hsearch in Hrun. cbn [rbind] in Hrun.
  rewrite Hrun. f_equal. rewrite <- Hlen.
  apply (scan_exhausts E body (first ++ more) first Hitems [] more eq_refl Hnone).
Qed.

(** X10: a track whose page embeds no video link, resolved without a
    search key, is absent, and the fetch of the page is the only call. *)
Theorem no_link_and_no_key_is_absent (lk : YoutubeLinker) (track url : json)
    (h : list event) :
  Py.getitem track "url" = Ok url ->
  lastfm_page E (h ++ [EvGetPage url]) url = Ok [] ->
  is_none (youtube_key lk) = true ->
  get_youtube_url E lk track h = (Ok None, [EvGetPage url]).
Proof.
  intros Hurl Hpage Hkey.
  rewrite (get_youtube_url_falls_through E lk track url h Hurl Hpage).
  unfold _get_from_youtube. rewrite Hkey. reflexivity.
Qed.

(** ** The line printed for a loaded track *)

Lemma watch_url_id (vid : string) :
  Py.slice_from (Py.find "?v=" (video_url_prefix ++ vid)%string + 3)
                (video_url_prefix ++ vid)%string = vid.
Proof.
  assert (Hfind : Py.find "?v=" (video_url_prefix ++ vid)%string = 29)
    by (destruct vid; vm_compute; reflexivity).
  rewrite Hfind. reflexivity.
Qed.

(** X11: for a track resolved to the watch url of the identifier [vid]
    and written to the player, the line printed names that identifier and
    the track: [[vid] Loaded name]. *)
Theorem printed_line_names_the_video (vlcrc : VLCrc) (c : nat) (lk : YoutubeLinker)
    (track name : json) (vid : string) (h : list event) :
  telnet vlcrc = Some c ->
  outcome (get_youtube_url E lk track h)
    = Ok (Some ("https://www.youtube.com/watch?v=" ++ vid)%string) ->
  Py.all_ascii vid = true ->
  (forall h' m, telnet_write E h' c m = None) ->
  Py.getitem track "name" = Ok name ->
  load_track E vlcrc lk true track h =
  (Ok tt,
   calls (get_youtube_url E lk track h)
     ++ [EvWrite c (enqueue_message ("https://www.youtube.com/watch?v=" ++ vid)%string);
         EvPrint ("[" ++ vid ++ "] Loaded " ++ py_str E name)%string]).
Proof.
  intros Htel Hr Hascii Hwrite Hname.
  change "https://www.youtube.com/watch?v="%string with video_url_prefix in *.
  unfold load_track. rewrite (bind_calls_ok _ _ _ _ Hr). cbn [outcome calls fst snd].
  set (h1 := h ++ calls (get_youtube_url E lk track h)).
  assert (Henq : enqueue E vlcrc (video_url_prefix ++ vid)%string h1 =
                 (Ok tt, [EvWrite c (enqueue_message (video_url_prefix ++ vid)%string)])).
  { apply enqueue_ok; [exact Htel | | apply Hwrite].
    rewrite all_ascii_app, Hascii. reflexivity. }
  rewrite (bind_calls_ok _ _ _ tt) by (rewrite Henq; reflexivity).
  rewrite Henq. cbn [outcome calls fst snd].
  rewrite bind_lift, Hname. rewrite watch_url_id. reflexivity.
Qed.

(** ** Values and failures of a fetch *)

(** X12: when the fetched value is not a list, [load_tracks] makes no
    call; it returns, with the watermark unchanged, only for an empty
    dictionary or an empty text; for a dictionary with entries (a single
    track given as an object, not as a list of one) it raises KeyError. *)
Theorem fetched_value_that_is_no_list (tracks : json) (w : Z) (vlcrc : VLCrc)
    (lk : YoutubeLinker) (verbose : bool) (h : list event) :
  (forall l, tracks <> JList l) ->
  calls (load_tracks E tracks w vlcrc lk verbose h) = [] /\
  (forall w', outcome (load_tracks E tracks w vlcrc lk verbose h) = Ok w' ->
              w' = w /\ (tracks = JDict [] \/ tracks = JStr "")) /\
  (forall kv d, tracks = JDict (kv :: d) ->
                outcome (load_tracks E tracks w vlcrc lk verbose h) = Raise KeyError).
Proof.
  intros Hnolist. unfold load_tracks. rewrite bind_lift.
  destruct tracks as [| b | n | s | l | d]; cbn [Py.len].
  - split; [reflexivity|]. split; [discriminate | discriminate].
  - split; [reflexivity|]. split; [discriminate | discriminate].
  - split; [reflexivity|]. split; [discriminate | discriminate].
  - destruct s as [|ch s].
    + split; [reflexivity|]. split; [|discriminate].
      intros w' H. unfold outcome, ret in H. cbn in H. injection H as <-. auto.
    + replace (Z.of_nat (String.length (String ch s)) =? 0) with false
        by (symmetry; apply Z.eqb_neq; cbn [String.length]; lia).
      rewrite bind_lift.
      assert (Hget : Py.getindex (JStr (String ch s)) 0 = Ok (JStr (String ch EmptyString))).
      { unfold Py.getindex, Py.at_position, Py.position. cbn [Py.chars List.length].
        replace (0 <=? 0) with true by reflexivity.
        replace (0 <? Z.of_nat (S (List.length (Py.chars s)))) with true
          by (symmetry; apply Z.ltb_lt; lia).
        reflexivity. }
      rewrite Hget, bind_lift. cbn [Py.getitem].
      split; [reflexivity|]. split; [discriminate | discriminate].
  - exfalso. apply (Hnolist l). reflexivity.
  - destruct d as [|kv d].
    + split; [reflexivity|]. split; [|discriminate].
      intros w' H. unfold outcome, ret in H. cbn in H. injection H as <-. auto.
    + replace (Z.of_nat (List.length (kv :: d)) =? 0) with false
        by (symmetry; apply Z.eqb_neq; cbn [List.length]; lia).
      rewrite bind_lift. cbn [Py.getindex].
      split; [reflexivity|]. split; [discriminate|].
      intros kv' d' _. reflexivity.
Qed.

Lemma cycle_aborted (L : Locals) (w : Z) (h : list event) (e : exn) (es : list event) :
  telnet_open E h (host L) (vlc_port L) = None ->
  poll E L w (session L h) (opened L h) = (Raise e, es) ->
  cycle E L w h =
  (Raise e, EvConnect (List.length h) (host L) (vlc_port L) :: es ++ [EvClose (List.length h)]).
Proof.
  intros Hopen Hpoll. rewrite cycle_run, Hopen, cycle_body_run, Hpoll. reflexivity.
Qed.

(** X13: when the timestamp of the first track of the batch cannot be
    read (no [date], no [uts], or a value [int] rejects), [load_tracks]
    raises before any call, and the cycle ends with that exception after
    its request and the closing of the session: nothing is resolved,
    written or printed, and the cycle does not sleep. *)
Theorem unreadable_timestamp_aborts_the_cycle (L : Locals) (w : Z) (h : list event)
    (t : json) (rest : list json) (e : exn) :
  played_at E t = Raise e ->
  (forall vlcrc lk verbose h',
      load_tracks E (JList (t :: rest)) w vlcrc lk verbose h' = (Raise e, [])) /\
  (telnet_open E h (host L) (vlc_port L) = None ->
   fetched E L w h = Ok (JList (t :: rest)) ->
   cycle E L w h =
     (Raise e,
      [EvConnect (List.length h) (host L) (vlc_port L); request L w;
       EvClose (List.length h)])).
Proof.
  intros Hts.
  assert (Hload : forall vlcrc lk verbose h',
            load_tracks E (JList (t :: rest)) w vlcrc lk verbose h' = (Raise e, [])).
  { intros vlcrc lk verbose h'. rewrite load_tracks_batch, Hts. reflexivity. }
  split; [exact Hload|].
  intros Hopen Hfetch.
  apply (cycle_aborted L w h e [request L w] Hopen).
  pose proof (poll_run E L w (session L h) (opened L h)) as Hpoll. cbv zeta in Hpoll.
  fold (request L w) in Hpoll. fold (fetched E L w h) in Hpoll.
  rewrite Hfetch, Hload in Hpoll. exact Hpoll.
Qed.

(** X14: when the player cannot be reached the cycle raises the error of
    the connection without any call, so that last.fm is not asked
    anything, and the loop stops there. *)
Theorem unreachable_player_stops_before_the_fetch (L : Locals) (w : Z) (h : list event)
    (e : exn) (n : nat) :
  telnet_open E h (host L) (vlc_port L) = Some e ->
  cycle E L w h = (Raise e, []) /\
  main_loop E L (S n) w h = (Raise e, []).
Proof.
  intros Hopen.
  assert (Hcycle : cycle E L w h = (Raise e, [])) by (rewrite cycle_run, Hopen; reflexivity).
  split; [exact Hcycle|].
  cbn [main_loop]. rewrite (bind_raises _ _ _ e) by (rewrite Hcycle; reflexivity).
  rewrite Hcycle. reflexivity.
Qed.

Lemma get_tracks_calls (self : Scrobbler) (w lim : Z) (h : list event) :
  calls (get_tracks E self w lim h) = [EvRecentTracks (user self) (lastfm_key self) w lim].
Proof.
  unfold get_tracks. rewrite bind_emit. cbn [calls snd]. set (h1 := h ++ _).
  rewrite (bind_silent _ _ h1 (lastfm_recenttracks E h1 (user self) (lastfm_key self) w lim))
    by reflexivity.
  destruct (lastfm_recenttracks E h1 _ _ _ _) as [body|e]; [|reflexivity].
  rewrite bind_lift. destruct (Py.getitem body "recenttracks"); reflexivity.
Qed.

(** X15: [get_tracks] sends exactly one request, with the user, the key,
    the lower bound and the limit it was given, whatever comes back; an
    answer that is a dictionary without [recenttracks] makes it raise
    KeyError. *)
Theorem get_tracks_sends_one_request (self : Scrobbler) (w lim : Z) (h : list event) :
  calls (get_tracks E self w lim h) = [EvRecentTracks (user self) (lastfm_key self) w lim] /\
  (forall d,
      lastfm_recenttracks E (h ++ [EvRecentTracks (user self) (lastfm_key self) w lim])
        (user self) (lastfm_key self) w lim = Ok (JDict d) ->
      Py.lookup "recenttracks" d = None ->
      outcome (get_tracks E self w lim h) = Raise KeyError).
Proof.
  split; [apply get_tracks_calls|].
  intros d Hbody Hmissing. unfold get_tracks. rewrite bind_emit. cbn [outcome fst].
  set (h1 := h ++ _) in *.
  rewrite (bind_silent _ _ h1 (lastfm_recenttracks E h1 (user self) (lastfm_key self) w lim))
    by reflexivity.
  rewrite Hbody, bind_lift. cbn [Py.getitem]. rewrite Hmissing. reflexivity.
Qed.

(** X16: when the fetch fails, the cycle ends with the exception of the
    fetch after closing the session: its calls are the opening, the
    request and the closing, with no status line and no sleep. *)
Theorem failed_fetch_ends_the_cycle (L : Locals) (w : Z) (h : list event) (e : exn) :
  telnet_open E h (host L) (vlc_port L) = None ->
  fetched E L w h = Raise e ->
  cycle E L w h =
  (Raise e,
   [EvConnect (List.length h) (host L) (vlc_port L); request L w; EvClose (List.length h)]).
Proof.
  intros Hopen Hfetch.
  apply (cycle_aborted L w h e [request L w] Hopen).
  pose proof (poll_run E L w (session L h) (opened L h)) as Hpoll. cbv zeta in Hpoll.
  fold (request L w) in Hpoll. fold (fetched E L w h) in Hpoll.
  rewrite Hfetch in Hpoll. exact Hpoll.
Qed.

(** ** The loop *)

Lemma main_loop_calls_all (P : event -> Prop) (L : Locals) :
  (forall w h, Forall P (calls (cycle E L w h))) ->
  forall n w h, Forall P (calls (main_loop E L n w h)).
Proof.
  intros Hcycle. induction n as [|n IH]; intros w h; [constructor|].
  cbn [main_loop]. unfold bind, calls.
  pose proof (Hcycle w h) as Hc. unfold calls in Hc.
  destruct (cycle E L w h) as [[w1|e] es]; cbn [snd] in *; [|exact Hc].
  pose proof (IH w1 (h ++ es)) as Hn. unfold calls in Hn.
  destruct (main_loop E L n w1 (h ++ es)) as [r es']. cbn [snd] in *.
  apply Forall_app. split; assumption.
Qed.

Lemma load_tracks_without_key (tracks : json) (w : Z) (vlcrc : VLCrc)
    (lk : YoutubeLinker) (verbose : bool) :
  is_none (youtube_key lk) = true ->
  always (fun ev => is_search ev = false) (load_tracks E tracks w vlcrc lk verbose).
Proof.
  intros Hkey.
  assert (Hresolve : forall track,
            always (fun ev => is_search ev = false) (get_youtube_url E lk track)).
  { intros track. unfold get_youtube_url. apply always_bind.
    - unfold _get_from_lastfm.
      apply always_bind; [apply always_silent; reflexivity|]. intros url.
      apply always_bind; [apply always_emit; reflexivity|]. intros _.
      apply always_bind.
      + apply always_silent. intros h. destruct (lastfm_page E h url); reflexivity.
      + intros values. destruct (xpath_last values); apply always_silent; reflexivity.
    - intros [u|]; [apply always_silent; reflexivity|].
      unfold _get_from_youtube. rewrite Hkey. apply always_silent. reflexivity. }
  unfold load_tracks.
  apply always_bind; [apply always_silent; reflexivity|]. intros n.
  destruct (n =? 0); [apply always_silent; reflexivity|].
  repeat (apply always_bind; [apply always_silent; reflexivity|intros ?]).
  apply always_bind; [|intros ?; apply always_silent; reflexivity].
  apply always_for_each. intros track. unfold load_track.
  apply always_bind; [apply Hresolve|]. intros [u|]; [|apply always_silent; reflexivity].
  apply always_bind.
  - intros h. destruct (telnet vlcrc) as [c|] eqn:Htel.
    + destruct (enqueue_calls vlcrc c u h Htel) as [-> | [-> _]]; repeat constructor.
    + unfold enqueue. rewrite Htel. constructor.
  - intros _. destruct verbose; [|apply always_silent; reflexivity].
    apply always_bind; [apply always_silent; reflexivity|].
    intros name. apply always_emit. reflexivity.
Qed.

(** X17: without a search key ([youtube_key] is [None]) the program never
    sends a search request, in any number of cycles and whatever the
    pages of the tracks hold. *)
Theorem no_key_never_searches (L : Locals) (n : nat) (w : Z) (h : list event) :
  is_none (youtube_key (linker L)) = true ->
  searches (calls (main_loop E L n w h)) = [].
Proof.
  intros Hkey.
  assert (Hall : Forall (fun ev => is_search ev = false) (calls (main_loop E L n w h))).
  { apply main_loop_calls_all. intros w0 h0. apply cycle_calls_all.
    - intros tracks. apply load_tracks_without_key. exact Hkey.
    - reflexivity.
    - reflexivity.
    - intros now w'. repeat constructor.
    - reflexivity. }
  induction Hall as [|ev es Hev _ IH]; [reflexivity|].
  destruct ev; try discriminate; exact IH.
Qed.

Lemma cycle_releases (L : Locals) (w : Z) (h : list event) :
  held (calls (cycle E L w h)) = [].
Proof.
  destruct (cycle_calls E L w h) as [-> | [es [tail [-> [Hes Htail]]]]]; [reflexivity|].
  assert (Hbody : Forall (fun ev => is_body ev = true) (es ++ tail)).
  { apply Forall_app. split; [apply is_load_body; exact Hes|].
    destruct Htail as [-> | [now [w' ->]]]; repeat constructor. }
  unfold held. cbn [held_from app request].
  rewrite app_assoc, held_from_app, (held_from_body [List.length h]) by exact Hbody.
  cbn [held_from filter]. rewrite Nat.eqb_refl. reflexivity.
Qed.

(** X18: after any number of turns of the loop, however the last one
    ended, no session is left open. *)
Theorem loop_leaves_no_session_open (L : Locals) (n : nat) (w : Z) (h : list event) :
  held (calls (main_loop E L n w h)) = [].
Proof.
  revert w h. induction n as [|n IH]; intros w h; [reflexivity|].
  cbn [main_loop]. unfold bind, calls.
  pose proof (cycle_releases L w h) as Hc. unfold calls in Hc.
  destruct (cycle E L w h) as [[w1|e] es]; cbn [snd] in *; [|exact Hc].
  pose proof (IH w1 (h ++ es)) as Hn. unfold calls in Hn.
  destruct (main_loop E L n w1 (h ++ es)) as [r es']. cbn [snd] in *.
  unfold held in *. rewrite held_from_app, Hc. exact Hn.
Qed.

(** X19: an exception ends the loop: once the first [n] turns have ended
    with an exception, running more turns changes neither the outcome nor
    the calls. *)
Theorem loop_stops_at_the_first_exception (L : Locals) (n k : nat) (w : Z)
    (h : list event) (e : exn) :
  outcome (main_loop E L n w h) = Raise e ->
  main_loop E L (n + k) w h = main_loop E L n w h.
Proof.
  revert w h. induction n as [|n IH]; intros w h Hraise; [discriminate|].
  cbn [main_loop Nat.add] in *.
  destruct (outcome (cycle E L w h)) as [w1|e1] eqn:Hc.
  - rewrite (bind_calls_ok _ _ _ w1 Hc) in Hraise. cbn [outcome fst] in Hraise.
    rewrite !(bind_calls_ok _ _ _ w1 Hc). rewrite (IH _ _ Hraise). reflexivity.
  - rewrite !(bind_raises _ _ _ e1 Hc). reflexivity.
Qed.

Lemma ascending_from (w : Z) (head rest : list Z) :
  head = [] \/ head = [w] ->
  Forall (fun x => w <= x) rest ->
  Sorted Z.le rest ->
  Sorted Z.le (head ++ rest).
Proof.
  intros [-> | ->] Hge Hsorted; [exact Hsorted|].
  cbn [app]. constructor; [exact Hsorted|].
  destruct rest as [|x rest]; constructor.
  inversion Hge; assumption.
Qed.

(** X20: when the service only returns events played at or after the
    bound it is asked with, the lower bounds of the successive fetches
    never decrease. *)
Theorem fetch_bounds_never_decrease (L : Locals) (n : nat) (w : Z) (h : list event) :
  (forall (w0 : Z) (h0 : list event) (tracks : list json),
      fetched E L w0 h0 = Ok (JList tracks) ->
      Forall (fun tr => exists ts, played_at E tr = Ok ts /\ w0 <= ts) tracks) ->
  Sorted Z.le (fetches (calls (main_loop E L n w h))).
Proof.
  intros Hsource. revert w h. induction n as [|n IH]; intros w h; [constructor|].
  cbn [main_loop].
  destruct (outcome (cycle E L w h)) as [w1|e] eqn:Hrun.
  - rewrite (bind_calls_ok _ _ _ w1 Hrun). cbn [calls snd]. rewrite fetches_app.
    apply (ascending_from w).
    + apply cycle_fetches.
    + pose proof (cycle_monotone E L Hsource w h w1 Hrun) as Hle.
      eapply Forall_impl; [|apply (main_loop_fetches E L Hsource)].
      intros f Hf. cbv beta in Hf. lia.
    + apply IH.
  - rewrite (bind_raises _ _ _ e Hrun). cbn [calls snd].
    destruct (cycle_fetches E L w h) as [-> | ->]; repeat constructor.
Qed.

(** ** The activity test *)


(** ** The start of main *)

Lemma main_setup_fields (lim : Z) (lfm_user : string) (config : json) (L : Locals) :
  main_setup E lim lfm_user config = Ok L ->
  limit L = lim /\
  user (scrobbler L) = lfm_user /\
  Py.getitem config "lastfm_key" = Ok (lastfm_key (scrobbler L)) /\
  Py.getitem config "youtube_key" = Ok (youtube_key (linker L)).
Proof.
  unfold main_setup.
  destruct (Py.getitem config "host") as [v1|e]; cbn [rbind]; [|discriminate].
  destruct (Py.getitem config "port") as [v2|e]; cbn [rbind]; [|discriminate].
  destruct (Py.getitem config "lastfm_key") as [v3|e]; cbn [rbind]; [|discriminate].
  destruct (Py.getitem config "youtube_key") as [v4|e]; cbn [rbind]; [|discriminate].
  destruct (Py.getitem config "active_window_min") as [v5|e]; cbn [rbind]; [|discriminate].
  destruct (py_int E v5) as [n5|e]; cbn [rbind]; [|discriminate].
  destruct (Py.getitem config "awake_min") as [v6|e]; cbn [rbind]; [|discriminate].
  destruct (py_int E v6) as [n6|e]; cbn [rbind]; [|discriminate].
  destruct (Py.getitem config "asleep_min") as [v7|e]; cbn [rbind]; [|discriminate].
  destruct (py_int E v7) as [n7|e]; cbn [rbind]; [|discriminate].
  intros H. injection H as <-. cbn. auto.
Qed.

(** X22: whatever [main] asks last.fm in its first cycle, it asks for the
    user and with the limit of the command line, with the key of the
    configuration, and from 0, the start of the history. *)
Theorem first_fetch_asks_from_the_start (lim : Z) (lfm_user : string) (config : json)
    (h : list event) :
  Forall (first_request lim lfm_user config) (calls (main E lim lfm_user config 1 h)).
Proof.
  unfold main. rewrite bind_lift.
  destruct (main_setup E lim lfm_user config) as [L|e] eqn:Hsetup; [|constructor].
  apply main_setup_fields in Hsetup. destruct Hsetup as (Hlim & Huser & Hkey & _).
  cbn [main_loop]. unfold bind, calls.
  assert (Hc : Forall (first_request lim lfm_user config) (calls (cycle E L 0 h))).
  { apply cycle_calls_all.
    - intros tracks. apply always_of_emits with (P := is_load); [|apply load_tracks_emits].
      intros [] Hev; try discriminate; exact I.
    - exact I.
    - cbn. auto.
    - intros now w'. repeat constructor.
    - exact I. }
  unfold calls in Hc. destruct (cycle E L 0 h) as [[w1|e] es]; cbn [snd ret] in *.
  - rewrite app_nil_r. exact Hc.
  - exact Hc.
Qed.

(** X23: a configuration that lacks one of the entries read at the start
    stops [main] with an exception before any call: the player is not
    contacted and nothing is fetched. *)
Theorem missing_configuration_entry_stops_main (lim : Z) (lfm_user : string)
    (d : list (string * json)) (key : string) (n : nat) (h : list event) :
  In key ["host"; "port"; "lastfm_key"; "youtube_key"; "active_window_min";
          "awake_min"; "asleep_min"]%string ->
  Py.lookup key d = None ->
  exists e, main E lim lfm_user (JDict d) n h = (Raise e, []).
Proof.
  intros Hin Hmissing. unfold main. rewrite bind_lift.
  destruct (main_setup E lim lfm_user (JDict d)) as [L|e] eqn:Hsetup;
    [|exists e; reflexivity].
  exfalso. revert Hsetup. unfold main_setup. cbn [Py.getitem].
  cbn [In] in Hin.
  destruct Hin as [<- | [<- | [<- | [<- | [<- | [<- | [<- | []]]]]]]];
    repeat match goal with
      | |- context [Py.lookup ?k d] =>
          lazymatch goal with
          | H : Py.lookup k d = None |- _ => rewrite H; cbn [rbind]; discriminate
          | _ => destruct (Py.lookup k d); cbn [rbind]; [|discriminate]
          end
      | |- context [py_int E ?v] => destruct (py_int E v); cbn [rbind]; [|discriminate]
      end.
Qed.

End Further.

(** * The further properties at work on the sample data *)

Lemma with_block_passes_outcome_and_closes_witness :
  with_VLCrc Cases.world_unreachable (JStr "127.0.0.1") (JNum 4212)
    (fun vlcrc => enqueue Cases.world_unreachable vlcrc Sample.url_A) []
    = (Raise OSError, []) /\
  with_VLCrc Sample.world (JStr "127.0.0.1") (JNum 4212)
    (fun vlcrc => enqueue Sample.world vlcrc Sample.url_A) []
    = (Ok tt,
       [EvConnect 0 (JStr "127.0.0.1") (JNum 4212);
        EvWrite 0 (enqueue_message Sample.url_A);
        EvClose 0]).
Proof.
  split.
  - apply (proj1 (with_block_passes_outcome_and_closes Cases.world_unreachable
                    (JStr "127.0.0.1") (JNum 4212)
                    (fun vlcrc => enqueue Cases.world_unreachable vlcrc Sample.url_A) [])).
    reflexivity.
  - apply (proj2 (with_block_passes_outcome_and_closes Sample.world
                    (JStr "127.0.0.1") (JNum 4212)
                    (fun vlcrc => enqueue Sample.world vlcrc Sample.url_A) [])).
    reflexivity.
Defined.

Lemma session_is_unusable_after_exit_witness :
  exists self',
    VLCrc_exit Sample.vlc [] = (Ok self', [EvClose 0]) /\
    telnet self' = None /\
    (forall url h', enqueue Sample.world self' url h' = (Raise AttributeError, [])) /\
    (forall h', VLCrc_exit self' h' = (Raise AttributeError, [])).
Proof.
  apply (session_is_unusable_after_exit Sample.world Sample.vlc 0%nat []).
  reflexivity.
Defined.

Lemma non_ascii_url_is_not_written_witness :
  load_track Cases.world_accent Sample.vlc (linker Sample.locals) true Sample.track_A [] =
  (Raise UnicodeEncodeError,
   calls (get_youtube_url Cases.world_accent (linker Sample.locals) Sample.track_A [])).
Proof.
  apply (proj2 (non_ascii_url_is_not_written Cases.world_accent Sample.vlc 0%nat
                  (linker Sample.locals) true Sample.track_A Cases.accented []
                  eq_refl eq_refl)).
  reflexivity.
Defined.

Lemma cycle_writes_enqueue_lines_to_its_session_witness :
  0%nat = List.length (@nil event) /\
  Py.all_ascii (enqueue_message Sample.url_A) = true /\
  exists url, enqueue_message Sample.url_A = enqueue_message url.
Proof.
  apply (cycle_writes_enqueue_lines_to_its_session Sample.world Sample.locals 0 []).
  vm_compute. right. right. right. left. reflexivity.
Defined.


Lemma short_search_response_is_an_index_error_witness :
  _get_from_youtube (Sample.world_channels 2) (linker Sample.locals) Sample.track_C [] =
  (Raise IndexError, [EvSearch "C Cyd" (JStr "yt") 5]).
Proof.
  apply (short_search_response_is_an_index_error (Sample.world_channels 2)
           (linker Sample.locals) Sample.track_C (JStr "C") (JDict [("#text", JStr "Cyd")])
           (JStr "Cyd") (Sample.channels_body 2) (repeat (Sample.channel "UCcccc") 2) []
           eq_refl eq_refl eq_refl eq_refl eq_refl eq_refl).
  - cbn [List.length repeat]. lia.
  - apply sample_channels_without_id.
Defined.

Lemma candidates_after_the_fifth_are_ignored_witness :
  _get_from_youtube Cases.world_sixth (linker Sample.locals) Sample.track_C [] =
  (Ok None, [EvSearch "C Cyd" (JStr "yt") 5]).
Proof.
  apply (candidates_after_the_fifth_are_ignored Cases.world_sixth
           (linker Sample.locals) Sample.track_C (JStr "C") (JDict [("#text", JStr "Cyd")])
           (JStr "Cyd") (JDict [("items", JList Cases.six_candidates)])
           (repeat (Sample.channel "UCcccc") 5)
           [Sample.candidate "youtube#video" "videoId" "eeeeeeeeeee"] []
           eq_refl eq_refl eq_refl eq_refl eq_refl eq_refl eq_refl).
  apply sample_channels_without_id.
Defined.

Lemma no_link_and_no_key_is_absent_witness :
  get_youtube_url Sample.world (linker Cases.locals_no_key) Sample.track_C [] =
  (Ok None, [EvGetPage (JStr "https://www.last.fm/music/Cyd/_/C")]).
Proof.
  apply (no_link_and_no_key_is_absent Sample.world (linker Cases.locals_no_key)
           Sample.track_C (JStr "https://www.last.fm/music/Cyd/_/C") []);
    reflexivity.
Defined.

Lemma printed_line_names_the_video_witness :
  load_track Sample.world Sample.vlc (linker Sample.locals) true Sample.track_B [] =
  (Ok tt,
   calls (get_youtube_url Sample.world (linker Sample.locals) Sample.track_B [])
     ++ [EvWrite 0 (enqueue_message ("https://www.youtube.com/watch?v=" ++ "bbbbbbbbbbb")%string);
         EvPrint ("[" ++ "bbbbbbbbbbb" ++ "] Loaded " ++ py_str Sample.world (JStr "B"))%string]).
Proof.
  apply (printed_line_names_the_video Sample.world Sample.vlc 0%nat (linker Sample.locals)
           Sample.track_B (JStr "B") "bbbbbbbbbbb" []);
    reflexivity.
Defined.

Lemma fetched_value_that_is_no_list_witness :
  outcome (load_tracks Sample.world Sample.track_A 0 Sample.vlc (linker Sample.locals)
             true []) = Raise KeyError.
Proof.
  assert (Hnolist : forall l, Sample.track_A <> JList l) by (intros l; discriminate).
  destruct (fetched_value_that_is_no_list Sample.world Sample.track_A 0 Sample.vlc
              (linker Sample.locals) true [] Hnolist) as (_ & _ & H).
  apply (H ("artist"%string, JDict [("#text"%string, JStr "Ann")])
           [("name"%string, JStr "A");
            ("url"%string, JStr "https://www.last.fm/music/Ann/_/A");
            ("date"%string, JDict [("uts"%string, JStr "100")])]).
  reflexivity.
Defined.

Lemma unreadable_timestamp_aborts_the_cycle_witness :
  cycle Cases.world_now_playing Sample.locals 0 [] =
  (Raise KeyError,
   [EvConnect (List.length (@nil event)) (host Sample.locals) (vlc_port Sample.locals);
    request Sample.locals 0;
    EvClose (List.length (@nil event))]).
Proof.
  apply (proj2 (unreadable_timestamp_aborts_the_cycle Cases.world_now_playing Sample.locals
                  0 [] Cases.now_playing [Sample.track_A] KeyError eq_refl));
    reflexivity.
Defined.

Lemma unreachable_player_stops_before_the_fetch_witness :
  cycle Cases.world_unreachable Sample.locals 0 [] = (Raise OSError, []) /\
  main_loop Cases.world_unreachable Sample.locals 3 0 [] = (Raise OSError, []).
Proof.
  apply (unreachable_player_stops_before_the_fetch Cases.world_unreachable Sample.locals
           0 [] OSError 2).
  reflexivity.
Defined.

Lemma get_tracks_sends_one_request_witness :
  outcome (get_tracks Cases.world_error_body (scrobbler Sample.locals) 0 25 [])
  = Raise KeyError.
Proof.
  apply (proj2 (get_tracks_sends_one_request Cases.world_error_body
                  (scrobbler Sample.locals) 0 25 [])
           [("error"%string, JNum 6); ("message"%string, JStr "User not found")]);
    reflexivity.
Defined.

Lemma failed_fetch_ends_the_cycle_witness :
  cycle Cases.world_offline Sample.locals 0 [] =
  (Raise RequestException,
   [EvConnect (List.length (@nil event)) (host Sample.locals) (vlc_port Sample.locals);
    request Sample.locals 0;
    EvClose (List.length (@nil event))]).
Proof.
  apply (failed_fetch_ends_the_cycle Cases.world_offline Sample.locals 0 []
           RequestException);
    reflexivity.
Defined.

Lemma no_key_never_searches_witness :
  searches (calls (main_loop Sample.world Cases.locals_no_key 2 0 [])) = [].
Proof.
  apply (no_key_never_searches Sample.world Cases.locals_no_key 2 0 []).
  reflexivity.
Defined.

Lemma loop_stops_at_the_first_exception_witness :
  main_loop Sample.world_down Sample.locals (1 + 3) 0 [] =
  main_loop Sample.world_down Sample.locals 1 0 [].
Proof.
  apply (loop_stops_at_the_first_exception Sample.world_down Sample.locals 1 3 0 []
           RequestException).
  reflexivity.
Defined.

Lemma fetch_bounds_never_decrease_witness :
  Sorted Z.le (fetches (calls (main_loop Sample.world Sample.locals 2 0 []))).
Proof.
  apply (fetch_bounds_never_decrease Sample.world Sample.locals 2 0 []).
  exact sample_source.
Defined.


Lemma missing_configuration_entry_stops_main_witness :
  exists e,
    main Sample.world 25 "someone"
      (JDict [("host", JStr "127.0.0.1"); ("port", JNum 4212)]) 2 [] = (Raise e, []).
Proof.
  apply (missing_configuration_entry_stops_main Sample.world 25 "someone"
           [("host"%string, JStr "127.0.0.1"); ("port"%string, JNum 4212)] "lastfm_key" 2 []).
  - right. right. left. reflexivity.
  - reflexivity.
Defined.
